(** * ocn-common: contract validation and trace utilities

    A shallow embedding of [src/ocn_common/contracts.py] and of
    [inject_trace_id_ce] from [src/ocn_common/trace.py].

    Python objects with mutable attributes ([SchemaLoader],
    [ContractValidator]) become records threaded through a small
    state-and-exception monad; [try]/[except] becomes [try_except] with a
    handler that dispatches on the exception class.  The two libraries the
    module calls ([json] and [jsonschema]) and the filesystem are not part of
    the repository: they are section variables and an explicit [filesystem]
    argument. *)

From Stdlib Require Import ZArith Ascii String DecimalString.
From stdpp Require Import gmap strings list fin_maps.

Open Scope string_scope.

(** ** JSON values *)

#[local] Unset Elimination Schemes.
Inductive json : Type :=
| JNull
| JBool (b : bool)
| JInt (n : Z)
| JFloat (mantissa exponent : Z)
| JStr (s : string)
| JArr (items : list json)
| JObj (members : list (string * json)).
#[local] Set Elimination Schemes.

(** ** Exceptions

    Every class below derives from Python's [Exception]; each constructor
    carries what the module reads from the exception object, which is
    [str(e)] (and [e.message] for a jsonschema [ValidationError]). *)

Inductive exn : Type :=
| JSONDecodeError (str : string)
| ValidationError (message : string) (str : string)
| SchemaError (str : string)
| FileNotFoundError (str : string)
| OSError (str : string)
| ContractValidationError (str : string)
| OtherException (str : string).

Definition str_of_exn (e : exn) : string :=
  match e with
  | JSONDecodeError s => s
  | ValidationError _ s => s
  | SchemaError s => s
  | FileNotFoundError s => s
  | OSError s => s
  | ContractValidationError s => s
  | OtherException s => s
  end.

(** ** The state-and-exception monad *)

Inductive outcome (A : Type) : Type :=
| Returns (a : A)
| Raises (e : exn).
Arguments Returns {A} a.
Arguments Raises {A} e.

Definition M (S A : Type) : Type := S → outcome A * S.

Definition ret {S A} (a : A) : M S A := λ s, (Returns a, s).
Definition raise {S A} (e : exn) : M S A := λ s, (Raises e, s).
Definition bind {S A B} (m : M S A) (k : A → M S B) : M S B :=
  λ s, match m s with
       | (Returns a, s') => k a s'
       | (Raises e, s') => (Raises e, s')
       end.
Definition get_state {S} : M S S := λ s, (Returns s, s).
Definition modify {S} (f : S → S) : M S unit := λ s, (Returns tt, f s).

(** [try: m except: h].  Attribute writes made before the exception was
    raised stay in place, as they do in Python. *)
Definition try_except {S A} (m : M S A) (h : exn → M S A) : M S A :=
  λ s, match m s with
       | (Returns a, s') => (Returns a, s')
       | (Raises e, s') => h e s'
       end.

(** Running a computation on a component of a larger object. *)
Definition zoom {S T A} (get : T → S) (set : S → T → T) (m : M S A) : M T A :=
  λ t, let '(r, s') := m (get t) in (r, set s' t).

Notation "'let!' x := m 'in' k" := (bind m (λ x, k))
  (at level 10, x pattern, m at level 100, k at level 200,
   format "'[v' 'let!'  x  :=  m  'in' '/' k ']'").

(** ** Paths and the filesystem *)

(** A [Path] is the string [str] prints for it.  [path_join] is [pathlib]'s
    [/] on a left operand in normal form (not empty, not [.], no trailing
    slash): an absolute right operand replaces the left one. *)
Definition path_join (p seg : string) : string :=
  match seg with
  | String "/"%char _ => seg
  | _ => p +:+ "/" +:+ seg
  end.

Inductive file : Type :=
| Readable (text : string)
| Unreadable (why : string).

(** [fs_files]: what [open(path, "r")] followed by a full read gives.
    [fs_dirs]: the entry names of each existing directory, in scan order. *)
Record filesystem : Type := {
  fs_files : gmap string file;
  fs_dirs : gmap string (list string)
}.

(** ** Violations produced by a validator *)

Inductive path_elem : Type :=
| Key (k : string)
| Index (i : nat).

Definition str_of_elem (p : path_elem) : string :=
  match p with
  | Key k => k
  | Index i => NilZero.string_of_uint (Nat.to_uint i)
  end.

(** One jsonschema [ValidationError] as [iter_errors] yields it. *)
Record violation : Type := {
  v_path : list path_elem;
  v_message : string;
  v_schema_path : list path_elem;
  v_str : string
}.

(** A finished generator run: the items it yielded, then either a normal end
    or the exception that stopped it. *)
Definition generated (A : Type) : Type := (list A * option exn)%type.

(** A compiled validator is its schema. *)
Record Draft202012Validator : Type := { schema : json }.

(** The dictionaries [get_validation_errors] returns. *)
Record error_dict : Type := {
  path : string;
  message : string;
  schema_path : string
}.

(** ** Objects *)

(** [io_trace] is instrumentation, not an attribute of the Python class: the
    paths handed to [open], most recent first. *)
Record SchemaLoader : Type := {
  base_path : string;
  _schemas_cache : gmap string json;
  io_trace : list string
}.

Record ContractValidator : Type := {
  schema_loader : SchemaLoader;
  _validators_cache : gmap string Draft202012Validator
}.

Definition set_schemas_cache (c : gmap string json) (l : SchemaLoader) : SchemaLoader :=
  {| base_path := base_path l; _schemas_cache := c; io_trace := io_trace l |}.

Definition log_open (p : string) (l : SchemaLoader) : SchemaLoader :=
  {| base_path := base_path l; _schemas_cache := _schemas_cache l;
     io_trace := p :: io_trace l |}.

Definition set_schema_loader (l : SchemaLoader) (v : ContractValidator) : ContractValidator :=
  {| schema_loader := l; _validators_cache := _validators_cache v |}.

Definition set_validators_cache (c : gmap string Draft202012Validator)
    (v : ContractValidator) : ContractValidator :=
  {| schema_loader := schema_loader v; _validators_cache := c |}.

(** [SchemaLoader(base_path)] and [ContractValidator(schema_loader)]. *)
Definition new_SchemaLoader (base : string) : SchemaLoader :=
  {| base_path := base; _schemas_cache := ∅; io_trace := [] |}.

Definition new_ContractValidator (l : SchemaLoader) : ContractValidator :=
  {| schema_loader := l; _validators_cache := ∅ |}.

(** ** String helpers used by [pathlib] *)

Definition ends_with (suffix s : string) : bool :=
  let n := String.length s in
  let m := String.length suffix in
  (m <=? n)%nat && String.eqb (substring (n - m) m s) suffix.

(** [str.rfind] for a one-character needle. *)
Fixpoint rfind (c : ascii) (s : string) : option nat :=
  match s with
  | EmptyString => None
  | String a s' =>
      match rfind c s' with
      | Some i => Some (S i)
      | None => if Ascii.eqb a c then Some 0%nat else None
      end
  end.

(** [PurePath.stem]: the final component without its last suffix. *)
Definition stem (name : string) : string :=
  match rfind "."%char name with
  | Some i =>
      if (0 <? i)%nat && (i <? String.length name - 1)%nat
      then substring 0 i name
      else name
  | None => name
  end.

Definition path_exists (fs : filesystem) (p : string) : bool :=
  bool_decide (is_Some (fs_dirs fs !! p)) || bool_decide (is_Some (fs_files fs !! p)).

(** [Path.glob] with a pattern of the shape [*suffix]: the entries of the
    directory whose name ends with [suffix]; nothing when [p] is not a
    directory. *)
Definition glob (fs : filesystem) (p suffix : string) : list string :=
  match fs_dirs fs !! p with
  | Some entries => filter (λ n, Is_true (ends_with suffix n)) entries
  | None => []
  end.

(** [open(path, "r")] and a full read, recorded in [io_trace]. *)
Definition open_read (fs : filesystem) (p : string) : M SchemaLoader string :=
  λ self,
    (match fs_files fs !! p with
     | Some (Readable text) => Returns text
     | Some (Unreadable why) => Raises (OSError why)
     | None => Raises (FileNotFoundError ("No such file or directory: " +:+ p))
     end, log_open p self).

(** ** [contracts.py] *)

Inductive payload : Type :=
| Text (s : string)
| Parsed (j : json).

(** [type_to_schema], the table inside [validate_cloudevent]. *)
Definition type_to_schema : gmap string string :=
  list_to_map
    [ ("ocn.orca.decision.v1", "orca.decision.v1");
      ("ocn.orca.explanation.v1", "orca.explanation.v1");
      ("ocn.weave.audit.v1", "weave.audit.v1") ].

Definition cache_key_of (schema_type schema_name : string) : string :=
  schema_type +:+ "/" +:+ schema_name.

Definition dict_of_violation (error : violation) : error_dict :=
  {| path := String.concat "." (map str_of_elem (v_path error));
     message := v_message error;
     schema_path := String.concat "." (map str_of_elem (v_schema_path error)) |}.

Section Contracts.

(** The library calls.  [json_loads s] is [inr msg] when [json.loads]
    raises [JSONDecodeError] with text [msg].  [check_schema j] is
    [Some msg] when [Draft202012Validator.check_schema] raises, which it
    does with jsonschema's [SchemaError].  [iter_errors v j] is the run of
    the generator [v.iter_errors(j)]. *)
Variable json_loads : string → json + string.
Variable check_schema : json → option string.
Variable iter_errors : Draft202012Validator → json → generated violation.

Definition loads {S} (s : string) : M S json :=
  match json_loads s with
  | inl j => ret j
  | inr msg => raise (JSONDecodeError msg)
  end.

(** [validator.validate(instance)]: raise the first error the generator
    yields. *)
Definition validate {S} (validator : Draft202012Validator) (instance : json) : M S unit :=
  match iter_errors validator instance with
  | (error :: _, _) => raise (ValidationError (v_message error) (v_str error))
  | ([], Some e) => raise e
  | ([], None) => ret tt
  end.

(** [for error in validator.iter_errors(payload): errors.append({...})]. *)
Definition collect_errors {S} (validator : Draft202012Validator) (instance : json)
    : M S (list error_dict) :=
  let '(yielded, stop) := iter_errors validator instance in
  let errors := fold_left (λ errors error, (errors ++ [dict_of_violation error])%list) yielded [] in
  match stop with
  | Some e => raise e
  | None => ret errors
  end.

Definition _load_schema (fs : filesystem) (schema_path : string) : M SchemaLoader json :=
  try_except
    (let! text := open_read fs schema_path in
     let! schema := loads text in
     let! _ := match check_schema schema with
               | Some msg => raise (SchemaError msg)
               | None => ret tt
               end in
     ret schema)
    (λ e, match e with
          | JSONDecodeError _ | ValidationError _ _ =>
              raise (ContractValidationError
                       ("Invalid schema at " +:+ schema_path +:+ ": " +:+ str_of_exn e))
          | FileNotFoundError _ =>
              raise (ContractValidationError ("Schema not found at " +:+ schema_path))
          | _ => raise e
          end).

Definition get_schema (fs : filesystem) (schema_name schema_type : string)
    : M SchemaLoader json :=
  let cache_key := cache_key_of schema_type schema_name in
  let! self := get_state in
  let! _ :=
    match _schemas_cache self !! cache_key with
    | Some _ => ret tt
    | None =>
        let! schema_path :=
          if String.eqb schema_type "mandates" then
            ret (path_join (path_join (path_join (base_path self) "common") "mandates")
                   (schema_name +:+ ".schema.json"))
          else if String.eqb schema_type "events" then
            ret (path_join
                   (path_join (path_join (path_join (base_path self) "common") "events") "v1")
                   (schema_name +:+ ".schema.json"))
          else raise (ContractValidationError ("Unknown schema type: " +:+ schema_type)) in
        let! loaded := _load_schema fs schema_path in
        modify (λ self, set_schemas_cache (<[cache_key := loaded]> (_schemas_cache self)) self)
    end in
  let! self := get_state in
  match _schemas_cache self !! cache_key with
  | Some cached => ret cached
  | None => raise (OtherException "KeyError")
  end.

Definition list_available_schemas (fs : filesystem) (self : SchemaLoader)
    : gmap string (list string) :=
  let mandates_path := path_join (path_join (base_path self) "common") "mandates" in
  let mandates :=
    if path_exists fs mandates_path
    then fold_left (λ acc schema_file, (acc ++ [stem schema_file])%list)
           (glob fs mandates_path ".schema.json") []
    else [] in
  let events_path :=
    path_join (path_join (path_join (base_path self) "common") "events") "v1" in
  let events :=
    if path_exists fs events_path
    then fold_left (λ acc schema_file, (acc ++ [stem schema_file])%list)
           (glob fs events_path ".schema.json") []
    else [] in
  <["events" := events]> (<["mandates" := mandates]> ∅).

Definition _get_validator (fs : filesystem) (schema_name schema_type : string)
    : M ContractValidator Draft202012Validator :=
  let cache_key := cache_key_of schema_type schema_name in
  let! self := get_state in
  let! _ :=
    match _validators_cache self !! cache_key with
    | Some _ => ret tt
    | None =>
        let! loaded := zoom schema_loader set_schema_loader
                         (get_schema fs schema_name schema_type) in
        modify (λ self, set_validators_cache
                          (<[cache_key := {| schema := loaded |}]> (_validators_cache self))
                          self)
    end in
  let! self := get_state in
  match _validators_cache self !! cache_key with
  | Some cached => ret cached
  | None => raise (OtherException "KeyError")
  end.

Definition parse_if_str {S} (p : payload) : M S json :=
  match p with
  | Text s => loads s
  | Parsed j => ret j
  end.

Definition validate_json (fs : filesystem) (p : payload) (schema_name : string)
    : M ContractValidator bool :=
  try_except
    (let! instance := parse_if_str p in
     let! validator := _get_validator fs schema_name "mandates" in
     let! _ := validate validator instance in
     ret true)
    (λ e, match e with
          | JSONDecodeError _ =>
              raise (ContractValidationError ("Invalid JSON payload: " +:+ str_of_exn e))
          | ValidationError message _ =>
              raise (ContractValidationError
                       ("Validation failed for schema '" +:+ schema_name +:+ "': " +:+ message))
          | _ =>
              raise (ContractValidationError
                       ("Unexpected validation error: " +:+ str_of_exn e))
          end).

Definition validate_cloudevent (fs : filesystem) (p : payload) (type_name : string)
    : M ContractValidator bool :=
  try_except
    (let! instance := parse_if_str p in
     let! schema_name :=
       match type_to_schema !! type_name with
       | Some (String c rest) => ret (String c rest)
       | Some EmptyString | None =>
           raise (ContractValidationError ("Unknown CloudEvent type: " +:+ type_name))
       end in
     let! validator := _get_validator fs schema_name "events" in
     let! _ := validate validator instance in
     ret true)
    (λ e, match e with
          | JSONDecodeError _ =>
              raise (ContractValidationError ("Invalid JSON payload: " +:+ str_of_exn e))
          | ValidationError message _ =>
              raise (ContractValidationError
                       ("Validation failed for CloudEvent type '" +:+ type_name
                          +:+ "': " +:+ message))
          | _ =>
              raise (ContractValidationError
                       ("Unexpected validation error: " +:+ str_of_exn e))
          end).

Definition get_validation_errors (fs : filesystem) (p : payload)
    (schema_name schema_type : string) : M ContractValidator (list error_dict) :=
  try_except
    (let! instance := parse_if_str p in
     let! validator := _get_validator fs schema_name schema_type in
     collect_errors validator instance)
    (λ e, match e with
          | JSONDecodeError _ =>
              ret [ {| path := ""; message := "Invalid JSON: " +:+ str_of_exn e;
                       schema_path := "" |} ]
          | _ =>
              ret [ {| path := ""; message := "Validation error: " +:+ str_of_exn e;
                       schema_path := "" |} ]
          end).

End Contracts.

(** ** Vocabulary for the statements *)

(** The file [get_schema] opens for a known schema type. *)
Definition schema_path_of (base schema_type schema_name : string) : string :=
  if String.eqb schema_type "mandates" then
    path_join (path_join (path_join base "common") "mandates")
      (schema_name +:+ ".schema.json")
  else
    path_join (path_join (path_join (path_join base "common") "events") "v1")
      (schema_name +:+ ".schema.json").

Definition known_type (schema_type : string) : bool :=
  String.eqb schema_type "mandates" || String.eqb schema_type "events".

(** The state after [k] successive calls of the same method. *)
Fixpoint after_calls {S A} (m : M S A) (k : nat) (s : S) : S :=
  match k with
  | O => s
  | S k' => after_calls m k' (snd (m s))
  end.

(** The single dictionary the two handlers of [get_validation_errors]
    build. *)
Definition synthetic_error (e : exn) : error_dict :=
  match e with
  | JSONDecodeError _ =>
      {| path := ""; message := "Invalid JSON: " +:+ str_of_exn e; schema_path := "" |}
  | _ =>
      {| path := ""; message := "Validation error: " +:+ str_of_exn e; schema_path := "" |}
  end.

(** What the first statement of each [try] block leaves in [payload]. *)
Definition instance_of (json_loads : string → json + string) (p : payload)
    : json + string :=
  match p with
  | Text s => json_loads s
  | Parsed j => inl j
  end.

(** How the [try] block of [get_validation_errors] ends: with the exception
    that leaves it, or with the violations the validator yielded. *)
Definition guarded_block
    (json_loads : string → json + string) (check_schema : json → option string)
    (iter_errors : Draft202012Validator → json → generated violation)
    (fs : filesystem) (p : payload) (schema_name schema_type : string)
    (self : ContractValidator) : exn + list violation :=
  match instance_of json_loads p with
  | inr msg => inl (JSONDecodeError msg)
  | inl instance =>
      match _get_validator json_loads check_schema fs schema_name schema_type self with
      | (Raises e, _) => inl e
      | (Returns validator, _) =>
          match iter_errors validator instance with
          | (_, Some e) => inl e
          | (yielded, None) => inr yielded
          end
      end
  end.

(** ** A small instance of the libraries

    Enough of [json.loads] and of a draft 2020-12 validator to run the
    module on concrete inputs: the literals [{}], [true], [false] and [null],
    and the schemas [{}], [true] (everything conforms) and [false] (nothing
    does). *)

Definition sample_loads (s : string) : json + string :=
  if String.eqb s "{}" then inl (JObj [])
  else if String.eqb s "true" then inl (JBool true)
  else if String.eqb s "false" then inl (JBool false)
  else if String.eqb s "null" then inl JNull
  else inr "Expecting value: line 1 column 1 (char 0)".

Definition sample_check_schema (j : json) : option string :=
  match j with
  | JBool _ | JObj _ => None
  | _ => Some "schema is not of type 'object', 'boolean'"
  end.

Definition sample_iter_errors (v : Draft202012Validator) (instance : json)
    : generated violation :=
  match schema v with
  | JBool false =>
      ([ {| v_path := []; v_message := "False schema does not allow this instance";
            v_schema_path := [];
            v_str := "False schema does not allow this instance" |} ], None)
  | _ => ([], None)
  end.

(** A deployment with three schema files under [/srv]. *)
Definition sample_fs : filesystem :=
  {| fs_files :=
       list_to_map
         [ ("/srv/common/mandates/intent_mandate.schema.json", Readable "{}");
           ("/srv/common/mandates/closed.schema.json", Readable "false");
           ("/srv/common/mandates/legacy/cart.schema.json", Readable "{}");
           ("/srv/common/mandates/broken.schema.json", Readable "not json") ];
     fs_dirs :=
       list_to_map
         [ ("/srv/common/mandates",
            [ "intent_mandate.schema.json"; "closed.schema.json"; "legacy";
              "broken.schema.json"; "README.md" ]);
           ("/srv/common/mandates/legacy", [ "cart.schema.json" ]) ] |}.

Definition sample_validator : ContractValidator :=
  new_ContractValidator (new_SchemaLoader "/srv").

(** ** [trace.py]: [inject_trace_id_ce]

    Dictionaries are mutable objects, so an envelope is a reference into a
    heap of dictionaries and a field holds an immediate value or a reference
    to another object. *)

Module Trace.

Inductive value : Type :=
| VNone
| VBool (b : bool)
| VInt (n : Z)
| VStr (s : string)
| VRef (l : nat).

(** [d.copy()]: a new dictionary object with the same items (the values
    are shared, not copied). *)
Definition dict_copy (l : nat) : M (gmap nat (gmap string value)) nat :=
  λ h, match h !! l with
       | Some d => let l' := fresh (dom h) in (Returns l', <[l' := d]> h)
       | None => (Raises (OtherException "not a dict"), h)
       end.

(** [d[k] = v]. *)
Definition dict_setitem (l : nat) (k : string) (v : value)
    : M (gmap nat (gmap string value)) unit :=
  λ h, match h !! l with
       | Some d => (Returns tt, <[l := <[k := v]> d]> h)
       | None => (Raises (OtherException "not a dict"), h)
       end.

Definition inject_trace_id_ce (envelope : nat) (trace_id : string)
    : M (gmap nat (gmap string value)) nat :=
  let! modified_envelope := dict_copy envelope in
  let! _ := dict_setitem modified_envelope "subject" (VStr trace_id) in
  ret modified_envelope.

(** The envelope of the module's doctest, stored at address 0, with a
    nested [data] object at address 1. *)
Definition sample_heap : gmap nat (gmap string value) :=
  list_to_map
    [ (0%nat, list_to_map [ ("specversion", VStr "1.0"); ("id", VStr "event-123");
                            ("source", VStr "https://example.com");
                            ("type", VStr "ocn.orca.decision.v1");
                            ("subject", VStr "old-subject");
                            ("data", VRef 1) ]);
      (1%nat, list_to_map [ ("decision", VStr "APPROVE") ]) ].

End Trace.

(** ** Sequences of calls on one validator *)

Inductive call : Type :=
| CallGetValidator (fs : filesystem) (schema_name schema_type : string)
| CallValidateJson (fs : filesystem) (p : payload) (schema_name : string)
| CallValidateCloudevent (fs : filesystem) (p : payload) (type_name : string)
| CallGetValidationErrors (fs : filesystem) (p : payload) (schema_name schema_type : string).

(** The validator object after one method call, and after a list of them;
    the filesystem may differ from call to call. *)
Definition after_call
    (json_loads : string → json + string) (check_schema : json → option string)
    (iter_errors : Draft202012Validator → json → generated violation)
    (c : call) (self : ContractValidator) : ContractValidator :=
  match c with
  | CallGetValidator fs schema_name schema_type =>
      snd (_get_validator json_loads check_schema fs schema_name schema_type self)
  | CallValidateJson fs p schema_name =>
      snd (validate_json json_loads check_schema iter_errors fs p schema_name self)
  | CallValidateCloudevent fs p type_name =>
      snd (validate_cloudevent json_loads check_schema iter_errors fs p type_name self)
  | CallGetValidationErrors fs p schema_name schema_type =>
      snd (get_validation_errors json_loads check_schema iter_errors
             fs p schema_name schema_type self)
  end.

Definition after_all
    (json_loads : string → json + string) (check_schema : json → option string)
    (iter_errors : Draft202012Validator → json → generated violation)
    (calls : list call) (self : ContractValidator) : ContractValidator :=
  fold_left (λ self c, after_call json_loads check_schema iter_errors c self) calls self.

(** Every cached validator wraps the schema cached under the same key. *)
Definition coherent (self : ContractValidator) : Prop :=
  ∀ key validator,
    _validators_cache self !! key = Some validator →
    _schemas_cache (schema_loader self) !! key = Some (schema validator).

(** ** The module-level validator of [contracts.py]

    The state is the global [_global_validator].  [project_root] stands for
    [Path(__file__).parent.parent.parent], the base path of the loader that
    [ContractValidator()] builds. *)

Module Toplevel.

Definition get_contract_validator (project_root : string)
    : M (option ContractValidator) ContractValidator :=
  λ _global_validator,
    match _global_validator with
    | None =>
        let created := new_ContractValidator (new_SchemaLoader project_root) in
        (Returns created, Some created)
    | Some existing => (Returns existing, Some existing)
    end.

(** A method call through the reference [get_contract_validator] returned:
    the object it mutates is the one the global names. *)
Definition on_validator {A} (method : M ContractValidator A)
    : M (option ContractValidator) A :=
  λ _global_validator,
    match _global_validator with
    | Some validator => let '(r, validator') := method validator in (r, Some validator')
    | None => (Raises (OtherException "'NoneType' object has no attribute"), None)
    end.

Definition validate_json
    (json_loads : string → json + string) (check_schema : json → option string)
    (iter_errors : Draft202012Validator → json → generated violation)
    (project_root : string) (fs : filesystem) (p : payload) (schema_name : string)
    : M (option ContractValidator) bool :=
  let! _ := get_contract_validator project_root in
  on_validator (validate_json json_loads check_schema iter_errors fs p schema_name).

Definition validate_cloudevent
    (json_loads : string → json + string) (check_schema : json → option string)
    (iter_errors : Draft202012Validator → json → generated violation)
    (project_root : string) (fs : filesystem) (p : payload) (type_name : string)
    : M (option ContractValidator) bool :=
  let! _ := get_contract_validator project_root in
  on_validator (validate_cloudevent json_loads check_schema iter_errors fs p type_name).

Definition list_available_schemas (project_root : string) (fs : filesystem)
    : M (option ContractValidator) (gmap string (list string)) :=
  let! _ := get_contract_validator project_root in
  on_validator (λ validator,
                  (Returns (list_available_schemas fs (schema_loader validator)), validator)).

End Toplevel.

(** ** The rest of [trace.py] *)

Module TraceUtil.
Import Trace.

Definition TRACE_HEADER : string := "x-ocn-trace-id".

(** The dictionaries, the number of UUIDs drawn so far, and the context
    variable [trace_context]. *)
Record world : Type := {
  objects : gmap nat (gmap string value);
  drawn : nat;
  trace_context : option string
}.

Definition set_objects (h : gmap nat (gmap string value)) (w : world) : world :=
  {| objects := h; drawn := drawn w; trace_context := trace_context w |}.

Definition set_trace_context (c : option string) (w : world) : world :=
  {| objects := objects w; drawn := drawn w; trace_context := c |}.

(** What [uuid.UUID(x)] does with its argument. *)
Inductive uuid_result : Type :=
| UUIDParsed (version : option nat)
| RaisesValueError
| RaisesTypeError
| RaisesAttributeError (str : string).

Definition type_name (v : value) : string :=
  match v with
  | VNone => "NoneType"
  | VBool _ => "bool"
  | VInt _ => "int"
  | VStr _ => "str"
  | VRef _ => "dict"
  end.

(** [bool(v)]; a dictionary is true when it has an item. *)
Definition truthy (h : gmap nat (gmap string value)) (v : value) : bool :=
  match v with
  | VNone => false
  | VBool b => b
  | VInt n => negb (n =? 0)%Z
  | VStr s => negb (String.eqb s "")
  | VRef l =>
      match h !! l with
      | Some d => negb (Nat.eqb (size d) 0)
      | None => true
      end
  end.

(** [d = {...}]: a new dictionary object. *)
Definition dict_new (d : gmap string value) : M (gmap nat (gmap string value)) nat :=
  λ h, let l := fresh (dom h) in (Returns l, <[l := d]> h).

(** [d.get(k)], with [None] for a missing key. *)
Definition dict_get (l : nat) (k : string) : M (gmap nat (gmap string value)) value :=
  λ h, match h !! l with
       | Some d => (Returns (default VNone (d !! k)), h)
       | None => (Raises (OtherException "not a dict"), h)
       end.

(** [d[k]]. *)
Definition dict_getitem (l : nat) (k : string) : M (gmap nat (gmap string value)) value :=
  λ h, match h !! l with
       | Some d =>
           match d !! k with
           | Some v => (Returns v, h)
           | None => (Raises (OtherException ("KeyError: " +:+ k)), h)
           end
       | None => (Raises (OtherException "not a dict"), h)
       end.

(** [try: m finally: f]. *)
Definition try_finally {S A} (m : M S A) (f : M S unit) : M S A :=
  λ s, let '(r, s') := m s in
       match f s' with
       | (Returns _, s'') => (r, s'')
       | (Raises e, s'') => (Raises e, s'')
       end.

(** A response, as far as the middleware touches it. *)
Record response : Type := {
  status : nat;
  headers : gmap string string
}.

Definition set_header (k v : string) (r : response) : response :=
  {| status := status r; headers := <[k := v]> (headers r) |}.

(** [format_trace_log]'s keyword arguments, each as its name and the [str]
    of its value, in call order. *)
Definition format_trace_log (trace_id message : string) (kwargs : list (string * string))
    : string :=
  let context_parts := map (λ kv, fst kv +:+ "=" +:+ snd kv) kwargs in
  let context_str :=
    match context_parts with
    | [] => ""
    | _ => String.concat " " context_parts
    end in
  "[trace_id=" +:+ trace_id +:+ "] " +:+ message
    +:+ (if String.eqb context_str "" then "" else " " +:+ context_str).

Definition get_current_trace_id : M world (option string) :=
  λ w, (Returns (trace_context w), w).

Definition set_current_trace_id (trace_id : string) : M world unit :=
  modify (set_trace_context (Some trace_id)).

Definition clear_current_trace_id : M world unit :=
  modify (set_trace_context None).

Section Uuid.

(** [uuid4 n] is [str(uuid.uuid4())] at the [n]-th draw.  [uuid_version s]
    is [None] when [uuid.UUID(s)] raises [ValueError] on the string [s], and
    otherwise the [version] attribute of the parsed UUID. *)
Variable uuid4 : nat → string.
Variable uuid_version : string → option (option nat).

Definition new_trace_id : M world string :=
  λ w, (Returns (uuid4 (drawn w)),
        {| objects := objects w; drawn := S (drawn w); trace_context := trace_context w |}).

(** The constructor calls [hex.replace] first, which only a string has; with
    [None] it raises [TypeError] before that. *)
Definition UUID (x : value) : uuid_result :=
  match x with
  | VStr s =>
      match uuid_version s with
      | Some version => UUIDParsed version
      | None => RaisesValueError
      end
  | VNone => RaisesTypeError
  | _ => RaisesAttributeError ("'" +:+ type_name x +:+ "' object has no attribute 'replace'")
  end.

Definition _is_valid_trace_id (trace_id : value) : M world bool :=
  match UUID trace_id with
  | UUIDParsed version =>
      ret match version with
          | Some v => Nat.eqb v 4
          | None => false
          end
  | RaisesValueError | RaisesTypeError => ret false
  | RaisesAttributeError str => raise (OtherException str)
  end.

Definition ensure_trace_id (ctx : option nat) : M world value :=
  let! ctx := match ctx with
              | None => zoom objects set_objects (dict_new ∅)
              | Some l => ret l
              end in
  let! existing_trace_id := zoom objects set_objects (dict_get ctx "trace_id") in
  let! w := get_state in
  let! replace :=
    if truthy (objects w) existing_trace_id
    then (let! valid := _is_valid_trace_id existing_trace_id in ret (negb valid))
    else ret true in
  let! _ :=
    if (replace : bool)
    then (let! generated := new_trace_id in
          zoom objects set_objects (dict_setitem ctx "trace_id" (VStr generated)))
    else ret tt in
  zoom objects set_objects (dict_getitem ctx "trace_id").

Definition create_trace_context (trace_id : option string) : M world nat :=
  let! trace_id := match trace_id with
                   | None => new_trace_id
                   | Some given => ret given
                   end in
  zoom objects set_objects
    (dict_new (<["version" := VStr "1.0.0"]>
                 (<["service" := VStr "ocn-common"]>
                    (<["trace_id" := VStr trace_id]> ∅)))).

(** [TraceMiddleware.dispatch]: [header] is
    [request.headers.get(TRACE_HEADER)] and [call_next] the rest of the
    application, awaited once. *)
Definition dispatch (header : option string) (call_next : M world response)
    : M world response :=
  let! trace_id := match header with
                   | Some (String c rest) => ret (String c rest)
                   | Some EmptyString | None => new_trace_id
                   end in
  let! _ := set_current_trace_id trace_id in
  try_finally
    (let! answer := call_next in
     ret (set_header TRACE_HEADER trace_id answer))
    clear_current_trace_id.

End Uuid.

(** A sample source of UUIDs and of [uuid.UUID]: the two identifiers are
    version 4, every other string is rejected. *)
Definition sample_uuid4 (n : nat) : string :=
  match n with
  | O => "550e8400-e29b-41d4-a716-446655440000"
  | _ => "6ba7b810-9dad-41d1-80b4-00c04fd430c8"
  end.

Definition sample_uuid_version (s : string) : option (option nat) :=
  if String.eqb s "550e8400-e29b-41d4-a716-446655440000" then Some (Some 4%nat)
  else if String.eqb s "6ba7b810-9dad-41d1-80b4-00c04fd430c8" then Some (Some 4%nat)
  else None.

Definition sample_world : world :=
  {| objects := list_to_map [ (0%nat, list_to_map [ ("user_id", VStr "123") ]) ];
     drawn := 0;
     trace_context := None |}.

End TraceUtil.

(** A deployment with one event schema that nothing conforms to. *)
Definition sample_events_fs : filesystem :=
  {| fs_files :=
       list_to_map
         [ ("/srv/common/events/v1/orca.decision.v1.schema.json", Readable "false") ];
     fs_dirs :=
       list_to_map
         [ ("/srv/common/events/v1", [ "orca.decision.v1.schema.json" ]) ] |}.

(** * Properties *)

(** A list built by appending one element per iteration is a [map]. *)
Lemma fold_left_snoc_map {A B} (f : A → B) (xs : list A) (acc : list B) :
  fold_left (λ acc x, (acc ++ [f x])%list) xs acc = (acc ++ map f xs)%list.
Proof.
  revert acc. induction xs as [|x xs IH]; intros acc; simpl.
  - by rewrite app_nil_r.
  - rewrite IH, <- app_assoc. reflexivity.
Qed.

(** ** The schema store *)

Section LoaderFacts.
Variable json_loads : string → json + string.
Variable check_schema : json → option string.

#[local] Abbreviation _load_schema := (_load_schema json_loads check_schema).
#[local] Abbreviation get_schema := (get_schema json_loads check_schema).

(** Loading reads the loader only to record the [open]: the outcome depends
    on the filesystem and the path alone. *)
Lemma _load_schema_run fs p self self0 :
  _load_schema fs p self = (fst (_load_schema fs p self0), log_open p self).
Proof.
  unfold _load_schema, try_except, bind, open_read, loads, ret, raise.
  destruct (fs_files fs !! p) as [[text|why]|]; simpl; try reflexivity.
  destruct (json_loads text) as [j|msg]; simpl; try reflexivity.
  destruct (check_schema j); reflexivity.
Qed.

(** The outcome of a load, by cases on the file.  A schema that fails the
    meta-schema check leaves [_load_schema] as jsonschema's [SchemaError]:
    the [except] clauses name [JSONDecodeError], [ValidationError] and
    [FileNotFoundError] only. *)
Lemma _load_schema_outcome fs p self :
  fst (_load_schema fs p self) =
    match fs_files fs !! p with
    | None => Raises (ContractValidationError ("Schema not found at " +:+ p))
    | Some (Unreadable why) => Raises (OSError why)
    | Some (Readable text) =>
        match json_loads text with
        | inr msg =>
            Raises (ContractValidationError
                      ("Invalid schema at " +:+ p +:+ ": " +:+ msg))
        | inl j =>
            match check_schema j with
            | Some msg => Raises (SchemaError msg)
            | None => Returns j
            end
        end
    end.
Proof.
  unfold _load_schema, try_except, bind, open_read, loads, ret, raise.
  destruct (fs_files fs !! p) as [[text|why]|]; simpl; try reflexivity.
  destruct (json_loads text) as [j|msg]; simpl; try reflexivity.
  destruct (check_schema j); reflexivity.
Qed.

Lemma get_schema_hit fs schema_name schema_type self cached :
  _schemas_cache self !! cache_key_of schema_type schema_name = Some cached →
  get_schema fs schema_name schema_type self = (Returns cached, self).
Proof.
  intros Hhit. unfold get_schema, bind, get_state, ret. simpl.
  rewrite Hhit. simpl. rewrite Hhit. reflexivity.
Qed.

Lemma get_schema_unknown_type fs schema_name schema_type self :
  _schemas_cache self !! cache_key_of schema_type schema_name = None →
  known_type schema_type = false →
  get_schema fs schema_name schema_type self =
    (Raises (ContractValidationError ("Unknown schema type: " +:+ schema_type)), self).
Proof.
  intros Hmiss Hty. unfold known_type in Hty.
  apply orb_false_iff in Hty as [Hm He].
  unfold get_schema, bind, get_state, raise. simpl.
  rewrite Hmiss, Hm, He. reflexivity.
Qed.

Lemma get_schema_miss fs schema_name schema_type self :
  _schemas_cache self !! cache_key_of schema_type schema_name = None →
  known_type schema_type = true →
  get_schema fs schema_name schema_type self =
    let p := schema_path_of (base_path self) schema_type schema_name in
    match fst (_load_schema fs p self) with
    | Returns loaded =>
        (Returns loaded,
         set_schemas_cache
           (<[cache_key_of schema_type schema_name := loaded]> (_schemas_cache self))
           (log_open p self))
    | Raises e => (Raises e, log_open p self)
    end.
Proof.
  intros Hmiss Hty. unfold known_type in Hty.
  unfold get_schema, schema_path_of, bind, get_state, modify, ret. simpl.
  rewrite Hmiss.
  destruct (String.eqb schema_type "mandates") eqn:Hm; simpl.
  - rewrite (_load_schema_run _ _ self self).
    destruct (fst (_load_schema _ _ _)) as [loaded|e]; simpl; [|reflexivity].
    rewrite lookup_insert_eq. reflexivity.
  - simpl in Hty. rewrite Hty. simpl.
    rewrite (_load_schema_run _ _ self self).
    destruct (fst (_load_schema _ _ _)) as [loaded|e]; simpl; [|reflexivity].
    rewrite lookup_insert_eq. reflexivity.
Qed.

(** A call that fails leaves the cache as it was. *)
Lemma get_schema_failure_not_cached fs schema_name schema_type self e self1 :
  get_schema fs schema_name schema_type self = (Raises e, self1) →
  _schemas_cache self1 = _schemas_cache self ∧ base_path self1 = base_path self.
Proof.
  intros Hrun.
  destruct (_schemas_cache self !! cache_key_of schema_type schema_name) as [c|] eqn:Hc.
  { rewrite (get_schema_hit _ _ _ _ _ Hc) in Hrun. discriminate. }
  destruct (known_type schema_type) eqn:Hty.
  - rewrite (get_schema_miss _ _ _ _ Hc Hty) in Hrun. simpl in Hrun.
    destruct (fst (_load_schema _ _ _)); inversion Hrun; subst. done.
  - rewrite (get_schema_unknown_type _ _ _ _ Hc Hty) in Hrun.
    inversion Hrun; subst. done.
Qed.

(** On a miss with a known type the file is opened, whatever comes of it. *)
Lemma get_schema_miss_opens fs schema_name schema_type self :
  _schemas_cache self !! cache_key_of schema_type schema_name = None →
  known_type schema_type = true →
  io_trace (snd (get_schema fs schema_name schema_type self)) =
    schema_path_of (base_path self) schema_type schema_name :: io_trace self.
Proof.
  intros Hc Hty. rewrite (get_schema_miss _ _ _ _ Hc Hty). simpl.
  destruct (fst (_load_schema _ _ _)); reflexivity.
Qed.

(** One call opens at most one file. *)
Lemma get_schema_opens_at_most_one fs schema_name schema_type self :
  (length (io_trace (snd (get_schema fs schema_name schema_type self)))
     ≤ length (io_trace self) + 1)%nat.
Proof.
  destruct (_schemas_cache self !! cache_key_of schema_type schema_name) as [c|] eqn:Hc.
  { rewrite (get_schema_hit _ _ _ _ _ Hc). simpl. lia. }
  destruct (known_type schema_type) eqn:Hty.
  - rewrite (get_schema_miss_opens _ _ _ _ Hc Hty). simpl. lia.
  - rewrite (get_schema_unknown_type _ _ _ _ Hc Hty). simpl. lia.
Qed.

(** After a success the schema is in the cache under the call's key. *)
Lemma get_schema_success_cached fs schema_name schema_type self loaded self1 :
  get_schema fs schema_name schema_type self = (Returns loaded, self1) →
  _schemas_cache self1 !! cache_key_of schema_type schema_name = Some loaded.
Proof.
  intros Hrun.
  destruct (_schemas_cache self !! cache_key_of schema_type schema_name) as [c|] eqn:Hc.
  { rewrite (get_schema_hit _ _ _ _ _ Hc) in Hrun. inversion Hrun; by subst. }
  destruct (known_type schema_type) eqn:Hty.
  - rewrite (get_schema_miss _ _ _ _ Hc Hty) in Hrun. simpl in Hrun.
    destruct (fst (_load_schema _ _ _)); inversion Hrun; subst.
    simpl. apply lookup_insert_eq.
  - rewrite (get_schema_unknown_type _ _ _ _ Hc Hty) in Hrun. discriminate.
Qed.

(** With the filesystem unchanged, a call that failed fails again the same
    way. *)
Lemma get_schema_failure_repeats fs schema_name schema_type self e self1 :
  get_schema fs schema_name schema_type self = (Raises e, self1) →
  fst (get_schema fs schema_name schema_type self1) = Raises e.
Proof.
  intros Hrun.
  destruct (get_schema_failure_not_cached _ _ _ _ _ _ Hrun) as [Hcache Hbase].
  destruct (_schemas_cache self !! cache_key_of schema_type schema_name) as [c|] eqn:Hc.
  { rewrite (get_schema_hit _ _ _ _ _ Hc) in Hrun. discriminate. }
  assert (Hc1 : _schemas_cache self1 !! cache_key_of schema_type schema_name = None)
    by (by rewrite Hcache).
  destruct (known_type schema_type) eqn:Hty.
  - rewrite (get_schema_miss _ _ _ _ Hc Hty) in Hrun. simpl in Hrun.
    rewrite (get_schema_miss _ _ _ _ Hc1 Hty). simpl. rewrite Hbase.
    rewrite (_load_schema_run _ _ self1 self). simpl.
    destruct (fst (_load_schema _ _ _)); inversion Hrun; subst. reflexivity.
  - rewrite (get_schema_unknown_type _ _ _ _ Hc Hty) in Hrun.
    rewrite (get_schema_unknown_type _ _ _ _ Hc1 Hty). by inversion Hrun.
Qed.

(** As long as the file keeps failing to load, each further call opens it
    again. *)
Lemma get_schema_retries fs schema_name schema_type e k :
  known_type schema_type = true →
  ∀ self,
    fst (get_schema fs schema_name schema_type self) = Raises e →
    io_trace (after_calls (get_schema fs schema_name schema_type) k self) =
      (repeat (schema_path_of (base_path self) schema_type schema_name) k
         ++ io_trace self)%list.
Proof.
  intros Hty. induction k as [|k IH]; intros self Hfail; [reflexivity|].
  simpl after_calls.
  destruct (get_schema fs schema_name schema_type self) as [r self1] eqn:Hrun.
  simpl in Hfail. subst r. simpl snd.
  destruct (get_schema_failure_not_cached _ _ _ _ _ _ Hrun) as [Hcache Hbase].
  rewrite IH by (by apply (get_schema_failure_repeats _ _ _ self)).
  rewrite Hbase.
  destruct (_schemas_cache self !! cache_key_of schema_type schema_name) as [c|] eqn:Hc.
  { rewrite (get_schema_hit _ _ _ _ _ Hc) in Hrun. discriminate. }
  pose proof (get_schema_miss_opens fs _ _ _ Hc Hty) as Hopen.
  rewrite Hrun in Hopen. simpl in Hopen. rewrite Hopen.
  rewrite cons_middle, app_assoc, <- repeat_cons. reflexivity.
Qed.

End LoaderFacts.

(** ** The validator cache *)

Section ValidatorFacts.
Variable json_loads : string → json + string.
Variable check_schema : json → option string.

#[local] Abbreviation get_schema := (get_schema json_loads check_schema).
#[local] Abbreviation _get_validator := (_get_validator json_loads check_schema).

Lemma _get_validator_hit fs schema_name schema_type self cached :
  _validators_cache self !! cache_key_of schema_type schema_name = Some cached →
  _get_validator fs schema_name schema_type self = (Returns cached, self).
Proof.
  intros Hhit. unfold _get_validator, bind, get_state, ret. simpl.
  rewrite Hhit. simpl. rewrite Hhit. reflexivity.
Qed.

Lemma _get_validator_miss fs schema_name schema_type self :
  _validators_cache self !! cache_key_of schema_type schema_name = None →
  _get_validator fs schema_name schema_type self =
    match get_schema fs schema_name schema_type (schema_loader self) with
    | (Returns loaded, loader') =>
        (Returns {| schema := loaded |},
         set_validators_cache
           (<[cache_key_of schema_type schema_name := {| schema := loaded |}]>
              (_validators_cache self))
           (set_schema_loader loader' self))
    | (Raises e, loader') => (Raises e, set_schema_loader loader' self)
    end.
Proof.
  intros Hmiss. unfold _get_validator, bind, get_state, modify, zoom, ret. simpl.
  rewrite Hmiss.
  destruct (get_schema _ _ _ _) as [[loaded|e] loader']; simpl; [|reflexivity].
  rewrite lookup_insert_eq. reflexivity.
Qed.

(** A failed call changes neither cache. *)
Lemma _get_validator_failure_not_cached fs schema_name schema_type self e self1 :
  _get_validator fs schema_name schema_type self = (Raises e, self1) →
  _validators_cache self1 = _validators_cache self
  ∧ _schemas_cache (schema_loader self1) = _schemas_cache (schema_loader self)
  ∧ base_path (schema_loader self1) = base_path (schema_loader self)
  ∧ _schemas_cache (schema_loader self) !! cache_key_of schema_type schema_name = None.
Proof.
  intros Hrun.
  destruct (_validators_cache self !! cache_key_of schema_type schema_name) as [c|] eqn:Hc.
  { rewrite (_get_validator_hit _ _ _ _ _ Hc) in Hrun. discriminate. }
  rewrite (_get_validator_miss _ _ _ _ Hc) in Hrun.
  destruct (get_schema _ _ _ _) as [[loaded|e'] loader'] eqn:Hload;
    inversion Hrun; subst. simpl.
  destruct (get_schema_failure_not_cached _ _ _ _ _ _ _ _ Hload) as [-> ->].
  repeat split.
  destruct (_schemas_cache (schema_loader self) !! _) as [c|] eqn:Hs; [|done].
  rewrite (get_schema_hit _ _ _ _ _ _ _ Hs) in Hload. discriminate.
Qed.

Lemma _get_validator_success_cached fs schema_name schema_type self validator self1 :
  _get_validator fs schema_name schema_type self = (Returns validator, self1) →
  _validators_cache self1 !! cache_key_of schema_type schema_name = Some validator.
Proof.
  intros Hrun.
  destruct (_validators_cache self !! cache_key_of schema_type schema_name) as [c|] eqn:Hc.
  { rewrite (_get_validator_hit _ _ _ _ _ Hc) in Hrun. inversion Hrun; by subst. }
  rewrite (_get_validator_miss _ _ _ _ Hc) in Hrun.
  destruct (get_schema _ _ _ _) as [[loaded|e'] loader']; inversion Hrun; subst.
  simpl. apply lookup_insert_eq.
Qed.

Lemma _get_validator_opens_at_most_one fs schema_name schema_type self :
  (length (io_trace (schema_loader (snd (_get_validator fs schema_name schema_type self))))
     ≤ length (io_trace (schema_loader self)) + 1)%nat.
Proof.
  destruct (_validators_cache self !! cache_key_of schema_type schema_name) as [c|] eqn:Hc.
  { rewrite (_get_validator_hit _ _ _ _ _ Hc). simpl. lia. }
  rewrite (_get_validator_miss _ _ _ _ Hc).
  pose proof (get_schema_opens_at_most_one json_loads check_schema
                fs schema_name schema_type (schema_loader self)) as Hle.
  destruct (get_schema _ _ _ _) as [[loaded|e'] loader']; simpl in *; lia.
Qed.

Lemma _get_validator_failure_repeats fs schema_name schema_type self e self1 :
  _get_validator fs schema_name schema_type self = (Raises e, self1) →
  fst (_get_validator fs schema_name schema_type self1) = Raises e.
Proof.
  intros Hrun.
  destruct (_get_validator_failure_not_cached _ _ _ _ _ _ Hrun) as (Hv & _ & _ & _).
  destruct (_validators_cache self !! cache_key_of schema_type schema_name) as [c|] eqn:Hc.
  { rewrite (_get_validator_hit _ _ _ _ _ Hc) in Hrun. discriminate. }
  rewrite (_get_validator_miss _ _ _ _ Hc) in Hrun.
  rewrite _get_validator_miss by (by rewrite Hv).
  destruct (get_schema _ _ _ (schema_loader self)) as [[loaded|e'] loader'] eqn:Hload;
    inversion Hrun; subst. simpl.
  pose proof (get_schema_failure_repeats _ _ _ _ _ _ _ _ Hload) as Hagain.
  destruct (get_schema _ _ _ loader') as [r loader'']. simpl in Hagain. by subst r.
Qed.

(** After a failure with a known type neither cache holds the key, so the
    next call reaches [open] again, on whatever the filesystem then is. *)
Lemma _get_validator_miss_opens fs schema_name schema_type self :
  _validators_cache self !! cache_key_of schema_type schema_name = None →
  _schemas_cache (schema_loader self) !! cache_key_of schema_type schema_name = None →
  known_type schema_type = true →
  io_trace (schema_loader (snd (_get_validator fs schema_name schema_type self))) =
    schema_path_of (base_path (schema_loader self)) schema_type schema_name
      :: io_trace (schema_loader self).
Proof.
  intros Hv Hs Hty. rewrite (_get_validator_miss _ _ _ _ Hv).
  pose proof (get_schema_miss_opens json_loads check_schema fs _ _ _ Hs Hty) as Hopen.
  destruct (get_schema _ _ _ _) as [[loaded|e'] loader']; exact Hopen.
Qed.

Lemma _get_validator_retries fs schema_name schema_type e k :
  known_type schema_type = true →
  ∀ self,
    fst (_get_validator fs schema_name schema_type self) = Raises e →
    io_trace (schema_loader (after_calls (_get_validator fs schema_name schema_type) k self)) =
      (repeat (schema_path_of (base_path (schema_loader self)) schema_type schema_name) k
         ++ io_trace (schema_loader self))%list.
Proof.
  intros Hty. induction k as [|k IH]; intros self Hfail; [reflexivity|].
  simpl after_calls.
  destruct (_get_validator fs schema_name schema_type self) as [r self1] eqn:Hrun.
  simpl in Hfail. subst r. simpl snd.
  destruct (_get_validator_failure_not_cached _ _ _ _ _ _ Hrun) as (Hv & Hs & Hbase & Hmiss).
  rewrite IH by (by apply (_get_validator_failure_repeats _ _ _ self)).
  rewrite Hbase.
  destruct (_validators_cache self !! cache_key_of schema_type schema_name) as [c|] eqn:Hc.
  { rewrite (_get_validator_hit _ _ _ _ _ Hc) in Hrun. discriminate. }
  pose proof (_get_validator_miss_opens fs _ _ _ Hc Hmiss Hty) as Hopen.
  rewrite Hrun in Hopen. simpl in Hopen. rewrite Hopen.
  rewrite cons_middle, app_assoc, <- repeat_cons. reflexivity.
Qed.

End ValidatorFacts.

(** ** The facade *)

Section FacadeFacts.
Variable json_loads : string → json + string.
Variable check_schema : json → option string.
Variable iter_errors : Draft202012Validator → json → generated violation.

#[local] Abbreviation _get_validator := (_get_validator json_loads check_schema).
#[local] Abbreviation validate_json := (validate_json json_loads check_schema iter_errors).
#[local] Abbreviation validate_cloudevent :=
  (validate_cloudevent json_loads check_schema iter_errors).
#[local] Abbreviation get_validation_errors :=
  (get_validation_errors json_loads check_schema iter_errors).
#[local] Abbreviation instance_of := (instance_of json_loads).

Lemma parse_if_str_run {S} (p : payload) (s : S) :
  parse_if_str json_loads p s =
    (match instance_of p with
     | inl instance => Returns instance
     | inr msg => Raises (JSONDecodeError msg)
     end, s).
Proof.
  destruct p as [text|j]; simpl; [|reflexivity].
  unfold loads. destruct (json_loads text); reflexivity.
Qed.

Lemma collect_errors_run {S} validator instance (s : S) :
  collect_errors iter_errors validator instance s =
    (match iter_errors validator instance with
     | (_, Some e) => Raises e
     | (yielded, None) => Returns (map dict_of_violation yielded)
     end, s).
Proof.
  unfold collect_errors. destruct (iter_errors validator instance) as [yielded stop].
  rewrite fold_left_snoc_map. destruct stop; reflexivity.
Qed.

(** [validate_json], one case per way through the [try] block. *)
Lemma validate_json_malformed fs p schema_name self msg :
  instance_of p = inr msg →
  validate_json fs p schema_name self =
    (Raises (ContractValidationError ("Invalid JSON payload: " +:+ msg)), self).
Proof.
  intros Hp. unfold validate_json, try_except, bind.
  rewrite parse_if_str_run, Hp. reflexivity.
Qed.

Lemma validate_json_run fs p schema_name self instance validator self1 :
  instance_of p = inl instance →
  _get_validator fs schema_name "mandates" self = (Returns validator, self1) →
  validate_json fs p schema_name self =
    match iter_errors validator instance with
    | (first :: _, _) =>
        (Raises (ContractValidationError
                   ("Validation failed for schema '" +:+ schema_name +:+ "': "
                      +:+ v_message first)), self1)
    | ([], Some e) =>
        (match e with
         | JSONDecodeError _ =>
             Raises (ContractValidationError ("Invalid JSON payload: " +:+ str_of_exn e))
         | ValidationError message _ =>
             Raises (ContractValidationError
                       ("Validation failed for schema '" +:+ schema_name +:+ "': "
                          +:+ message))
         | _ =>
             Raises (ContractValidationError
                       ("Unexpected validation error: " +:+ str_of_exn e))
         end, self1)
    | ([], None) => (Returns true, self1)
    end.
Proof.
  intros Hp Hv. unfold validate_json, try_except, bind.
  rewrite parse_if_str_run, Hp, Hv. unfold validate.
  destruct (iter_errors validator instance) as [[|first rest] [e|]]; simpl;
    try reflexivity.
  destruct e; reflexivity.
Qed.

Lemma validate_json_no_validator fs p schema_name self instance e self1 :
  instance_of p = inl instance →
  _get_validator fs schema_name "mandates" self = (Raises e, self1) →
  ∃ text, validate_json fs p schema_name self = (Raises (ContractValidationError text), self1).
Proof.
  intros Hp Hv. unfold validate_json, try_except, bind.
  rewrite parse_if_str_run, Hp, Hv. destruct e; simpl; eauto.
Qed.

(** [get_validation_errors] always returns: the list of the violations, or
    the one dictionary its handlers build. *)
Lemma get_validation_errors_run fs p schema_name schema_type self :
  fst (get_validation_errors fs p schema_name schema_type self) =
    Returns
      (match guarded_block json_loads check_schema iter_errors
               fs p schema_name schema_type self with
       | inl e => [synthetic_error e]
       | inr yielded => map dict_of_violation yielded
       end).
Proof.
  unfold get_validation_errors, guarded_block, try_except, bind.
  rewrite parse_if_str_run.
  destruct (instance_of p) as [instance|msg]; [|reflexivity].
  destruct (_get_validator fs schema_name schema_type self) as [[validator|e] self1].
  - rewrite collect_errors_run.
    destruct (iter_errors validator instance) as [yielded [e|]]; [|reflexivity].
    destruct e; reflexivity.
  - destruct e; reflexivity.
Qed.

Lemma get_validation_errors_state fs p schema_name schema_type self :
  snd (get_validation_errors fs p schema_name schema_type self) =
    match instance_of p with
    | inl _ => snd (_get_validator fs schema_name schema_type self)
    | inr _ => self
    end.
Proof.
  unfold get_validation_errors, try_except, bind.
  rewrite parse_if_str_run.
  destruct (instance_of p) as [instance|msg]; [|reflexivity].
  destruct (_get_validator fs schema_name schema_type self) as [[validator|e] self1].
  - rewrite collect_errors_run.
    destruct (iter_errors validator instance) as [yielded [e|]]; [|reflexivity].
    destruct e; reflexivity.
  - destruct e; reflexivity.
Qed.

End FacadeFacts.

(** ** Statements about the facade *)

Section FacadeClaims.
Variable json_loads : string → json + string.
Variable check_schema : json → option string.
Variable iter_errors : Draft202012Validator → json → generated violation.

#[local] Abbreviation get_schema := (get_schema json_loads check_schema).
#[local] Abbreviation _get_validator := (_get_validator json_loads check_schema).
#[local] Abbreviation validate_json := (validate_json json_loads check_schema iter_errors).
#[local] Abbreviation validate_cloudevent :=
  (validate_cloudevent json_loads check_schema iter_errors).
#[local] Abbreviation get_validation_errors :=
  (get_validation_errors json_loads check_schema iter_errors).
#[local] Abbreviation instance_of := (instance_of json_loads).

(** A type name without a usable entry in [type_to_schema] stops
    [validate_cloudevent] before any validator is looked up.  The
    [ContractValidationError] raised in the [try] block is itself caught by
    the final [except Exception] clause and raised again with a prefix. *)
Lemma validate_cloudevent_unregistered fs p type_name self instance :
  instance_of p = inl instance →
  type_to_schema !! type_name = None →
  validate_cloudevent fs p type_name self =
    (Raises (ContractValidationError
               ("Unexpected validation error: Unknown CloudEvent type: " +:+ type_name)),
     self).
Proof.
  intros Hp Hnone. unfold validate_cloudevent, try_except, bind.
  rewrite (parse_if_str_run json_loads), Hp, Hnone. reflexivity.
Qed.

(** C1. The claim is that a valid [orion_explanation] event validates under
    the wire type [ocn.orion.explanation.v1].  That type is not a key of
    [type_to_schema], so for every parsed event, valid or not, the call
    raises [ContractValidationError] and no schema is looked up. *)
Theorem validate_cloudevent_orion_explanation_rejected fs (event : json) self :
  validate_cloudevent fs (Parsed event) "ocn.orion.explanation.v1" self =
    (Raises (ContractValidationError
               "Unexpected validation error: Unknown CloudEvent type: ocn.orion.explanation.v1"),
     self).
Proof.
  apply (validate_cloudevent_unregistered fs (Parsed event) _ self event); reflexivity.
Qed.

(** C4. For a wire type with no entry in [type_to_schema] and a payload that
    parses, [validate_cloudevent] raises the unknown-type error, and the
    validator object is returned as it was: no cache entry is added and no
    file is opened. *)
Theorem validate_cloudevent_unknown_type fs p type_name self instance :
  instance_of p = inl instance →
  type_to_schema !! type_name = None →
  validate_cloudevent fs p type_name self =
    (Raises (ContractValidationError
               ("Unexpected validation error: Unknown CloudEvent type: " +:+ type_name)),
     self).
Proof. apply validate_cloudevent_unregistered. Qed.

(** C5. With the mandate validator available and the payload parsed:
    when the validator yields at least one violation, [validate_json] raises
    [ContractValidationError] whose text names the schema and carries the
    message of the first violation and nothing of the later ones; when the
    validator yields none, it returns [True]. *)
Theorem validate_json_fail_fast fs p schema_name self instance validator self1 :
  instance_of p = inl instance →
  _get_validator fs schema_name "mandates" self = (Returns validator, self1) →
  (∀ first rest stop,
     iter_errors validator instance = (first :: rest, stop) →
     validate_json fs p schema_name self =
       (Raises (ContractValidationError
                  ("Validation failed for schema '" +:+ schema_name +:+ "': "
                     +:+ v_message first)), self1))
  ∧ (iter_errors validator instance = ([], None) →
     validate_json fs p schema_name self = (Returns true, self1)).
Proof.
  intros Hp Hv.
  pose proof (validate_json_run json_loads check_schema iter_errors
                fs p schema_name self instance validator self1 Hp Hv) as Hrun.
  split.
  - intros first rest stop Hit. rewrite Hit in Hrun. exact Hrun.
  - intros Hit. rewrite Hit in Hrun. exact Hrun.
Qed.



(** C10. [get_validation_errors] returns a list for every payload, schema
    name, schema type, validator state and filesystem; whenever its [try]
    block is left by an exception, whichever it is, the list is the single
    dictionary built from that exception. *)
Theorem get_validation_errors_total fs p schema_name schema_type self :
  ∃ errors self1,
    get_validation_errors fs p schema_name schema_type self = (Returns errors, self1)
    ∧ match guarded_block json_loads check_schema iter_errors
              fs p schema_name schema_type self with
      | inl e =>
          errors = [ {| path := "";
                        message := match e with
                                   | JSONDecodeError msg => "Invalid JSON: " +:+ msg
                                   | _ => "Validation error: " +:+ str_of_exn e
                                   end;
                        schema_path := "" |} ]
      | inr yielded => errors = map dict_of_violation yielded
      end.
Proof.
  pose proof (get_validation_errors_run json_loads check_schema iter_errors
                fs p schema_name schema_type self) as Hrun.
  destruct (get_validation_errors fs p schema_name schema_type self) as [r self1].
  simpl in Hrun. subst r. eexists _, self1. split; [reflexivity|].
  destruct (guarded_block _ _ _ fs p schema_name schema_type self) as [e|yielded];
    [destruct e|]; reflexivity.
Qed.

End FacadeClaims.

(** ** Statements about the two caches *)

Section CacheClaims.
Variable json_loads : string → json + string.
Variable check_schema : json → option string.

#[local] Abbreviation get_schema := (get_schema json_loads check_schema).
#[local] Abbreviation _get_validator := (_get_validator json_loads check_schema).

(** C2. Two calls of [get_schema], and two calls of [_get_validator], with
    the same name and type give the same outcome.  If the first call
    succeeds, the two calls together open at most one file: the first opens
    at most one and the second returns the cached value without opening any,
    whatever the filesystem has become.  If the first call fails, nothing is
    added to a cache, and for a known schema type every later call opens the
    schema file again. *)
Theorem schema_and_validator_memoized fs schema_name schema_type :
  (∀ self r self1,
     get_schema fs schema_name schema_type self = (r, self1) →
     fst (get_schema fs schema_name schema_type self1) = r
     ∧ (∀ loaded, r = Returns loaded →
          (length (io_trace self1) ≤ length (io_trace self) + 1)%nat
          ∧ ∀ fs', get_schema fs' schema_name schema_type self1 = (Returns loaded, self1))
     ∧ (∀ e, r = Raises e →
          _schemas_cache self1 = _schemas_cache self
          ∧ (known_type schema_type = true →
             (∀ fs', io_trace (snd (get_schema fs' schema_name schema_type self1)) =
                       schema_path_of (base_path self) schema_type schema_name
                         :: io_trace self1)
             ∧ ∀ k, io_trace (after_calls (get_schema fs schema_name schema_type) k self) =
                      (repeat (schema_path_of (base_path self) schema_type schema_name) k
                         ++ io_trace self)%list)))
  ∧ (∀ self r self1,
       _get_validator fs schema_name schema_type self = (r, self1) →
       fst (_get_validator fs schema_name schema_type self1) = r
       ∧ (∀ validator, r = Returns validator →
            (length (io_trace (schema_loader self1))
               ≤ length (io_trace (schema_loader self)) + 1)%nat
            ∧ ∀ fs', _get_validator fs' schema_name schema_type self1
                     = (Returns validator, self1))
       ∧ (∀ e, r = Raises e →
            _validators_cache self1 = _validators_cache self
            ∧ _schemas_cache (schema_loader self1) = _schemas_cache (schema_loader self)
            ∧ (known_type schema_type = true →
               (∀ fs', io_trace (schema_loader
                                   (snd (_get_validator fs' schema_name schema_type self1))) =
                         schema_path_of (base_path (schema_loader self))
                           schema_type schema_name
                           :: io_trace (schema_loader self1))
               ∧ ∀ k, io_trace (schema_loader
                                  (after_calls (_get_validator fs schema_name schema_type)
                                     k self)) =
                        (repeat (schema_path_of (base_path (schema_loader self))
                                   schema_type schema_name) k
                           ++ io_trace (schema_loader self))%list))).
Proof.
  split.
  - intros self r self1 Hrun.
    pose proof (get_schema_opens_at_most_one json_loads check_schema
                  fs schema_name schema_type self) as Hle.
    rewrite Hrun in Hle. simpl in Hle.
    destruct r as [loaded|e].
    + pose proof (get_schema_success_cached _ _ _ _ _ _ _ _ Hrun) as Hc.
      split; [by rewrite (get_schema_hit _ _ _ _ _ _ _ Hc)|].
      split; [|intros e; discriminate].
      intros ? [= <-]. split; [exact Hle|].
      intros fs'. by apply get_schema_hit.
    + destruct (get_schema_failure_not_cached _ _ _ _ _ _ _ _ Hrun) as [Hcache Hbase].
      split; [by apply (get_schema_failure_repeats _ _ _ _ _ self)|].
      split; [intros loaded; discriminate|].
      intros ? [= <-]. split; [exact Hcache|]. intros Hty.
      assert (Hmiss : _schemas_cache self !! cache_key_of schema_type schema_name = None).
      { destruct (_schemas_cache self !! _) as [c|] eqn:Hc; [|done].
        rewrite (get_schema_hit _ _ _ _ _ _ _ Hc) in Hrun. discriminate. }
      split.
      * intros fs'. rewrite <- Hbase. apply get_schema_miss_opens; [|exact Hty].
        by rewrite Hcache.
      * intros k. apply (get_schema_retries _ _ _ _ _ e); [exact Hty|].
        by rewrite Hrun.
  - intros self r self1 Hrun.
    pose proof (_get_validator_opens_at_most_one json_loads check_schema
                  fs schema_name schema_type self) as Hle.
    rewrite Hrun in Hle. simpl in Hle.
    destruct r as [validator|e].
    + pose proof (_get_validator_success_cached _ _ _ _ _ _ _ _ Hrun) as Hc.
      split; [by rewrite (_get_validator_hit _ _ _ _ _ _ _ Hc)|].
      split; [|intros e; discriminate].
      intros ? [= <-]. split; [exact Hle|].
      intros fs'. by apply _get_validator_hit.
    + destruct (_get_validator_failure_not_cached _ _ _ _ _ _ _ _ Hrun)
        as (Hv & Hs & Hbase & Hmiss).
      split; [by apply (_get_validator_failure_repeats _ _ _ _ _ self)|].
      split; [intros validator; discriminate|].
      intros ? [= <-]. split; [exact Hv|]. split; [exact Hs|]. intros Hty.
      assert (Hvmiss : _validators_cache self !! cache_key_of schema_type schema_name = None).
      { destruct (_validators_cache self !! _) as [c|] eqn:Hc; [|done].
        rewrite (_get_validator_hit _ _ _ _ _ _ _ Hc) in Hrun. discriminate. }
      split.
      * intros fs'. rewrite <- Hbase.
        apply _get_validator_miss_opens; [by rewrite Hv|by rewrite Hs|exact Hty].
      * intros k. apply (_get_validator_retries _ _ _ _ _ e); [exact Hty|].
        by rewrite Hrun.
Qed.

End CacheClaims.

(** ** Schema failures seen through [get_validation_errors] *)

Section SchemaFailures.
Variable json_loads : string → json + string.
Variable check_schema : json → option string.
Variable iter_errors : Draft202012Validator → json → generated violation.

#[local] Abbreviation get_validation_errors :=
  (get_validation_errors json_loads check_schema iter_errors).

(** With nothing cached under the key, a failure of [get_schema] is the
    failure of the guarded block. *)
Lemma guarded_block_schema_failure fs p schema_name schema_type self instance e :
  instance_of json_loads p = inl instance →
  _validators_cache self !! cache_key_of schema_type schema_name = None →
  fst (get_schema json_loads check_schema fs schema_name schema_type (schema_loader self))
    = Raises e →
  guarded_block json_loads check_schema iter_errors fs p schema_name schema_type self = inl e.
Proof.
  intros Hp Hv Hfail. unfold guarded_block. rewrite Hp.
  rewrite (_get_validator_miss _ _ _ _ _ _ Hv).
  destruct (get_schema _ _ _ _ _ _) as [[loaded|e'] loader']; simpl in Hfail;
    [discriminate|]. by inversion Hfail.
Qed.

(** Unknown schema type, schema file absent, schema file not JSON, schema
    rejected by the meta-schema: each comes back as one dictionary. *)
Lemma get_validation_errors_schema_failures fs p schema_name schema_type self instance :
  instance_of json_loads p = inl instance →
  _validators_cache self !! cache_key_of schema_type schema_name = None →
  _schemas_cache (schema_loader self) !! cache_key_of schema_type schema_name = None →
  let file := schema_path_of (base_path (schema_loader self)) schema_type schema_name in
  let one (text : string) :=
    Returns [ {| path := ""; message := "Validation error: " +:+ text; schema_path := "" |} ] in
  (known_type schema_type = false →
   fst (get_validation_errors fs p schema_name schema_type self)
     = one ("Unknown schema type: " +:+ schema_type))
  ∧ (known_type schema_type = true →
     fs_files fs !! file = None →
     fst (get_validation_errors fs p schema_name schema_type self)
       = one ("Schema not found at " +:+ file))
  ∧ (∀ text msg,
       known_type schema_type = true →
       fs_files fs !! file = Some (Readable text) →
       json_loads text = inr msg →
       fst (get_validation_errors fs p schema_name schema_type self)
         = one ("Invalid schema at " +:+ file +:+ ": " +:+ msg))
  ∧ (∀ text j msg,
       known_type schema_type = true →
       fs_files fs !! file = Some (Readable text) →
       json_loads text = inl j →
       check_schema j = Some msg →
       fst (get_validation_errors fs p schema_name schema_type self) = one msg).
Proof.
  intros Hp Hv Hs file one.
  assert (Hvia : ∀ e,
             fst (get_schema json_loads check_schema fs schema_name schema_type
                    (schema_loader self)) = Raises e →
             fst (get_validation_errors fs p schema_name schema_type self)
               = Returns [synthetic_error e]).
  { intros e He. rewrite get_validation_errors_run.
    by rewrite (guarded_block_schema_failure _ _ _ _ _ _ _ Hp Hv He). }
  assert (Hload : known_type schema_type = true →
             ∀ e, fst (_load_schema json_loads check_schema fs file (schema_loader self))
                    = Raises e →
                  fst (get_schema json_loads check_schema fs schema_name schema_type
                         (schema_loader self)) = Raises e).
  { intros Hty e He. rewrite (get_schema_miss _ _ _ _ _ _ Hs Hty). simpl.
    fold file. by rewrite He. }
  repeat split.
  - intros Hty. rewrite (Hvia (ContractValidationError ("Unknown schema type: " +:+ schema_type))).
    + reflexivity.
    + by rewrite (get_schema_unknown_type _ _ _ _ _ _ Hs Hty).
  - intros Hty Hnone.
    rewrite (Hvia (ContractValidationError ("Schema not found at " +:+ file))).
    + reflexivity.
    + apply Hload; [exact Hty|]. by rewrite _load_schema_outcome, Hnone.
  - intros text msg Hty Hfile Hbad.
    rewrite (Hvia (ContractValidationError
                     ("Invalid schema at " +:+ file +:+ ": " +:+ msg))).
    + reflexivity.
    + apply Hload; [exact Hty|]. by rewrite _load_schema_outcome, Hfile, Hbad.
  - intros text j msg Hty Hfile Hok Hchk.
    rewrite (Hvia (SchemaError msg)).
    + reflexivity.
    + apply Hload; [exact Hty|]. by rewrite _load_schema_outcome, Hfile, Hok, Hchk.
Qed.

End SchemaFailures.

(** ** Listing the schema files *)

Lemma rfind_dot_schema_json (name : string) :
  rfind "." (name +:+ ".schema.json") = Some (String.length name + 7)%nat.
Proof.
  induction name as [|a name IH]; [reflexivity|].
  simpl. rewrite IH. reflexivity.
Qed.

Lemma substring_prefix_app (s t : string) (n : nat) :
  substring 0 (String.length s + n) (s +:+ t) = s +:+ substring 0 n t.
Proof.
  induction s as [|a s IH]; simpl.
  - reflexivity.
  - by rewrite IH.
Qed.

(** The name listed for the file [<name>.schema.json] is [<name>.schema]:
    [stem] removes the last suffix only. *)
Lemma stem_schema_file (name : string) :
  stem (name +:+ ".schema.json") = name +:+ ".schema".
Proof.
  unfold stem. rewrite rfind_dot_schema_json.
  assert (Hlen : String.length (name +:+ ".schema.json") = (String.length name + 12)%nat).
  { induction name as [|a name IH]; simpl; [reflexivity|by rewrite IH]. }
  rewrite Hlen.
  replace (0 <? String.length name + 7)%nat with true
    by (symmetry; apply Nat.ltb_lt; lia).
  replace (String.length name + 7 <? String.length name + 12 - 1)%nat with true
    by (symmetry; apply Nat.ltb_lt; lia).
  simpl andb. cbv iota. by rewrite substring_prefix_app.
Qed.

(** Each list of the result holds the stems of the entries of the
    category's directory that end in [.schema.json], in scan order. *)
Lemma list_available_schemas_lookup fs self :
  list_available_schemas fs self !! "mandates"
    = Some (map stem (glob fs (path_join (path_join (base_path self) "common") "mandates")
                        ".schema.json"))
  ∧ list_available_schemas fs self !! "events"
    = Some (map stem (glob fs (path_join
                                 (path_join (path_join (base_path self) "common") "events")
                                 "v1")
                        ".schema.json")).
Proof.
  assert (Hdir : ∀ dir,
             (if path_exists fs dir
              then fold_left (λ acc schema_file, (acc ++ [stem schema_file])%list)
                     (glob fs dir ".schema.json") []
              else []) = map stem (glob fs dir ".schema.json")).
  { intros dir. rewrite fold_left_snoc_map. simpl.
    unfold path_exists, glob.
    destruct (fs_dirs fs !! dir) as [entries|]; simpl; [reflexivity|].
    by destruct (bool_decide _). }
  unfold list_available_schemas. split.
  - rewrite lookup_insert_ne by done. rewrite lookup_insert_eq. by rewrite Hdir.
  - rewrite lookup_insert_eq. by rewrite Hdir.
Qed.

(** An absent directory, or one without any [*.schema.json] entry, gives the
    empty list and no error. *)
Lemma glob_absent fs dir suffix :
  fs_dirs fs !! dir = None → glob fs dir suffix = [].
Proof. intros Hnone. unfold glob. by rewrite Hnone. Qed.

Lemma glob_no_match fs dir suffix entries :
  fs_dirs fs !! dir = Some entries →
  Forall (λ n, ends_with suffix n = false) entries →
  glob fs dir suffix = [].
Proof.
  intros Hdir Hall. unfold glob. rewrite Hdir. clear Hdir.
  induction Hall as [|n ns Hn _ IH]; [reflexivity|].
  rewrite filter_cons. rewrite decide_False; [exact IH|].
  rewrite Hn. exact id.
Qed.

Lemma list_available_schemas_empty fs self :
  let mandates_path := path_join (path_join (base_path self) "common") "mandates" in
  let events_path :=
    path_join (path_join (path_join (base_path self) "common") "events") "v1" in
  (glob fs mandates_path ".schema.json" = [] →
   list_available_schemas fs self !! "mandates" = Some [])
  ∧ (glob fs events_path ".schema.json" = [] →
     list_available_schemas fs self !! "events" = Some []).
Proof.
  destruct (list_available_schemas_lookup fs self) as [Hm He].
  split; intros Hglob; [rewrite Hm|rewrite He]; by rewrite Hglob.
Qed.

(** C8. The claim is that the listing gives the names of the schema files
    of a category.  For the file [intent_mandate.schema.json] the listing
    gives [intent_mandate.schema], which is neither the file's name nor the
    name [get_schema] loads it under: asking [get_schema] for the listed name
    fails, asking for [intent_mandate] succeeds. *)
Theorem list_available_schemas_names_not_loadable :
  list_available_schemas sample_fs (new_SchemaLoader "/srv") !! "mandates"
    = Some [ "intent_mandate.schema"; "closed.schema"; "broken.schema" ]
  ∧ fst (get_schema sample_loads sample_check_schema sample_fs
           "intent_mandate.schema" "mandates" (new_SchemaLoader "/srv"))
    = Raises (ContractValidationError
                "Schema not found at /srv/common/mandates/intent_mandate.schema.schema.json")
  ∧ fst (get_schema sample_loads sample_check_schema sample_fs
           "intent_mandate" "mandates" (new_SchemaLoader "/srv"))
    = Returns (JObj []).
Proof. vm_compute. repeat split. Qed.

(** C3. The claim is that every schema type other than [mandates] and
    [events] is refused.  The type is examined on a cache miss only, and the
    cache key joins type and name with a slash, so the key of type
    [mandates/legacy] and name [cart] is the key of type [mandates] and name
    [legacy/cart]: once the latter is loaded, the former is served from the
    cache and nothing is raised. *)
Theorem get_schema_unknown_type_served_from_cache :
  let loader :=
    snd (get_schema sample_loads sample_check_schema sample_fs
           "legacy/cart" "mandates" (new_SchemaLoader "/srv")) in
  known_type "mandates/legacy" = false
  ∧ cache_key_of "mandates/legacy" "cart" = cache_key_of "mandates" "legacy/cart"
  ∧ get_schema sample_loads sample_check_schema sample_fs "cart" "mandates/legacy" loader
    = (Returns (JObj []), loader).
Proof. vm_compute. repeat split. Qed.

(** ** The statements at concrete inputs *)

Lemma schema_and_validator_memoized_witness :
  fst (get_schema sample_loads sample_check_schema sample_fs "intent_mandate" "mandates"
         (snd (get_schema sample_loads sample_check_schema sample_fs
                 "intent_mandate" "mandates" (new_SchemaLoader "/srv"))))
    = Returns (JObj [])
  ∧ fst (_get_validator sample_loads sample_check_schema sample_fs "missing" "events"
           (snd (_get_validator sample_loads sample_check_schema sample_fs
                   "missing" "events" sample_validator)))
    = Raises (ContractValidationError
                "Schema not found at /srv/common/events/v1/missing.schema.json").
Proof.
  split.
  - refine (proj1 (proj1 (schema_and_validator_memoized sample_loads sample_check_schema
                            sample_fs "intent_mandate" "mandates")
                     (new_SchemaLoader "/srv") _ _ _)).
    vm_compute. reflexivity.
  - refine (proj1 (proj2 (schema_and_validator_memoized sample_loads sample_check_schema
                            sample_fs "missing" "events")
                     sample_validator _ _ _)).
    vm_compute. reflexivity.
Defined.

Lemma validate_cloudevent_unknown_type_witness :
  validate_cloudevent sample_loads sample_check_schema sample_iter_errors sample_fs
    (Text "{}") "ocn.unknown.event.v1" sample_validator
  = (Raises (ContractValidationError
               "Unexpected validation error: Unknown CloudEvent type: ocn.unknown.event.v1"),
     sample_validator).
Proof.
  apply (validate_cloudevent_unknown_type sample_loads sample_check_schema
           sample_iter_errors sample_fs (Text "{}") "ocn.unknown.event.v1"
           sample_validator (JObj [])).
  - reflexivity.
  - vm_compute. reflexivity.
Defined.

Lemma validate_json_fail_fast_witness :
  fst (validate_json sample_loads sample_check_schema sample_iter_errors sample_fs
         (Parsed (JObj [])) "closed" sample_validator)
    = Raises (ContractValidationError
                "Validation failed for schema 'closed': False schema does not allow this instance")
  ∧ fst (validate_json sample_loads sample_check_schema sample_iter_errors sample_fs
           (Text "{}") "intent_mandate" sample_validator)
    = Returns true.
Proof.
  split.
  - assert (Hv : _get_validator sample_loads sample_check_schema sample_fs
                   "closed" "mandates" sample_validator
                 = (Returns {| schema := JBool false |},
                    snd (_get_validator sample_loads sample_check_schema sample_fs
                           "closed" "mandates" sample_validator)))
      by (vm_compute; reflexivity).
    destruct (validate_json_fail_fast sample_loads sample_check_schema
                sample_iter_errors sample_fs (Parsed (JObj [])) "closed"
                sample_validator (JObj []) _ _ eq_refl Hv) as [Hbad _].
    rewrite (Hbad _ [] None eq_refl). reflexivity.
  - assert (Hv : _get_validator sample_loads sample_check_schema sample_fs
                   "intent_mandate" "mandates" sample_validator
                 = (Returns {| schema := JObj [] |},
                    snd (_get_validator sample_loads sample_check_schema sample_fs
                           "intent_mandate" "mandates" sample_validator)))
      by (vm_compute; reflexivity).
    destruct (validate_json_fail_fast sample_loads sample_check_schema
                sample_iter_errors sample_fs (Text "{}") "intent_mandate"
                sample_validator (JObj []) _ _ eq_refl Hv) as [_ Hgood].
    rewrite (Hgood eq_refl). reflexivity.
Defined.



(** ** [inject_trace_id_ce] *)

Module TraceFacts.
Import Trace.

(** C9. Given a reference to an envelope, [inject_trace_id_ce] returns a
    reference to a new dictionary, distinct from the envelope, whose
    [subject] is the trace ID and whose other keys map to what they map to in
    the envelope; the envelope and every other object of the heap are as
    they were. *)
Theorem inject_trace_id_ce_frame (h : gmap nat (gmap string value))
    (envelope : nat) (fields : gmap string value) (trace_id : string) :
  h !! envelope = Some fields →
  ∃ result h' fields',
    inject_trace_id_ce envelope trace_id h = (Returns result, h')
    ∧ result ≠ envelope
    ∧ h !! result = None
    ∧ h' !! result = Some fields'
    ∧ fields' !! "subject" = Some (VStr trace_id)
    ∧ (∀ k, k ≠ "subject" → fields' !! k = fields !! k)
    ∧ h' !! envelope = Some fields
    ∧ (∀ l, l ≠ result → h' !! l = h !! l).
Proof.
  intros Henv.
  assert (Hfresh : h !! fresh (dom h) = None).
  { apply not_elem_of_dom. apply is_fresh. }
  assert (Hne : fresh (dom h) ≠ envelope).
  { intros Heq. rewrite Heq, Henv in Hfresh. discriminate. }
  exists (fresh (dom h)),
         (<[fresh (dom h) := <["subject" := VStr trace_id]> fields]> h),
         (<["subject" := VStr trace_id]> fields).
  repeat split.
  - unfold inject_trace_id_ce, bind, dict_copy, dict_setitem, ret.
    rewrite Henv. simpl. rewrite lookup_insert_eq, insert_insert_eq. reflexivity.
  - exact Hne.
  - exact Hfresh.
  - apply lookup_insert_eq.
  - apply lookup_insert_eq.
  - intros k Hk. by apply lookup_insert_ne.
  - rewrite lookup_insert_ne by exact Hne. exact Henv.
  - intros l Hl. by apply lookup_insert_ne.
Qed.

Lemma inject_trace_id_ce_frame_witness :
  ∃ result h' fields',
    inject_trace_id_ce 0 "trace-456" sample_heap = (Returns result, h')
    ∧ result ≠ 0%nat
    ∧ h' !! result = Some fields'
    ∧ fields' !! "subject" = Some (VStr "trace-456")
    ∧ fields' !! "id" = Some (VStr "event-123")
    ∧ (h' !! 0%nat ≫= λ fields, fields !! "subject") = Some (VStr "old-subject").
Proof.
  destruct (inject_trace_id_ce_frame sample_heap 0
              (list_to_map [ ("specversion", VStr "1.0"); ("id", VStr "event-123");
                             ("source", VStr "https://example.com");
                             ("type", VStr "ocn.orca.decision.v1");
                             ("subject", VStr "old-subject");
                             ("data", VRef 1) ])
              "trace-456")
    as (result & h' & fields' & Hrun & Hne & _ & Hres & Hsubj & Hother & Henv & _).
  { vm_compute. reflexivity. }
  exists result, h', fields'. repeat split; try assumption.
  - rewrite Hother by done. vm_compute. reflexivity.
  - rewrite Henv. vm_compute. reflexivity.
Defined.

End TraceFacts.

(** * Further properties *)

(** ** Cache keys *)

(** X1. Among the two schema types the loader accepts, a cache key
    determines the type and the name: two different schemas of known types
    never share a cache entry. *)
Theorem cache_key_of_injective_known (type1 name1 type2 name2 : string) :
  known_type type1 = true →
  known_type type2 = true →
  cache_key_of type1 name1 = cache_key_of type2 name2 →
  type1 = type2 ∧ name1 = name2.
Proof.
  unfold known_type. intros H1 H2 Hkey.
  apply orb_true_iff in H1 as [H1|H1]; apply String.eqb_eq in H1;
    apply orb_true_iff in H2 as [H2|H2]; apply String.eqb_eq in H2; subst;
    unfold cache_key_of in Hkey; simpl in Hkey;
    first [discriminate Hkey | by inversion Hkey].
Qed.

Lemma cache_key_of_injective_known_witness :
  "mandates" = "mandates" ∧ "intent_mandate" = "intent_mandate".
Proof.
  apply (cache_key_of_injective_known "mandates" "intent_mandate"
           "mandates" "intent_mandate"); reflexivity.
Defined.

(** ** How the state moves *)

Section StateFacts.
Variable json_loads : string → json + string.
Variable check_schema : json → option string.
Variable iter_errors : Draft202012Validator → json → generated violation.

#[local] Abbreviation get_schema := (get_schema json_loads check_schema).
#[local] Abbreviation _get_validator := (_get_validator json_loads check_schema).
#[local] Abbreviation validate_json := (validate_json json_loads check_schema iter_errors).
#[local] Abbreviation validate_cloudevent :=
  (validate_cloudevent json_loads check_schema iter_errors).
#[local] Abbreviation get_validation_errors :=
  (get_validation_errors json_loads check_schema iter_errors).
#[local] Abbreviation after_call := (after_call json_loads check_schema iter_errors).
#[local] Abbreviation after_all := (after_all json_loads check_schema iter_errors).

Lemma get_schema_keeps fs schema_name schema_type self :
  base_path (snd (get_schema fs schema_name schema_type self)) = base_path self
  ∧ ∀ key cached,
      _schemas_cache self !! key = Some cached →
      _schemas_cache (snd (get_schema fs schema_name schema_type self)) !! key = Some cached.
Proof.
  destruct (_schemas_cache self !! cache_key_of schema_type schema_name) as [c|] eqn:Hc.
  { by rewrite (get_schema_hit _ _ _ _ _ _ _ Hc). }
  destruct (known_type schema_type) eqn:Hty.
  - rewrite (get_schema_miss _ _ _ _ _ _ Hc Hty). simpl.
    destruct (fst (_load_schema _ _ _ _ _)); simpl; [|done].
    split; [done|]. intros key cached Hkey.
    rewrite lookup_insert_ne; [done|]. intros <-. congruence.
  - by rewrite (get_schema_unknown_type _ _ _ _ _ _ Hc Hty).
Qed.

Lemma _get_validator_keeps fs schema_name schema_type self :
  let self1 := snd (_get_validator fs schema_name schema_type self) in
  base_path (schema_loader self1) = base_path (schema_loader self)
  ∧ (∀ key cached,
       _schemas_cache (schema_loader self) !! key = Some cached →
       _schemas_cache (schema_loader self1) !! key = Some cached)
  ∧ (∀ key cached,
       _validators_cache self !! key = Some cached →
       _validators_cache self1 !! key = Some cached)
  ∧ (coherent self → coherent self1).
Proof.
  destruct (_validators_cache self !! cache_key_of schema_type schema_name) as [c|] eqn:Hc.
  { by rewrite (_get_validator_hit _ _ _ _ _ _ _ Hc). }
  rewrite (_get_validator_miss _ _ _ _ _ _ Hc).
  destruct (get_schema_keeps fs schema_name schema_type (schema_loader self))
    as [Hbase Hmono].
  destruct (get_schema _ _ _ _) as [[loaded|e] loader'] eqn:Hload; simpl in *.
  - repeat split; [done|done| |].
    + intros key cached Hkey. rewrite lookup_insert_ne; [done|]. intros <-. congruence.
    + intros Hcoh key validator. unfold coherent. simpl.
      destruct (decide (cache_key_of schema_type schema_name = key)) as [<-|Hne].
      * rewrite lookup_insert_eq. intros [= <-]. simpl.
        by apply (get_schema_success_cached _ _ _ _ _ _ _ _ Hload).
      * rewrite lookup_insert_ne by done. intros Hkey. by apply Hmono, Hcoh.
  - repeat split; [done|done|done|].
    intros Hcoh key validator Hkey. simpl in *. by apply Hmono, Hcoh.
Qed.

Lemma validate_json_state fs p schema_name self :
  snd (validate_json fs p schema_name self) =
    match instance_of json_loads p with
    | inl _ => snd (_get_validator fs schema_name "mandates" self)
    | inr _ => self
    end.
Proof.
  unfold validate_json, try_except, bind. rewrite parse_if_str_run.
  destruct (instance_of json_loads p) as [instance|msg]; [|reflexivity].
  destruct (_get_validator fs schema_name "mandates" self) as [[validator|e] self1].
  - unfold validate.
    destruct (iter_errors validator instance) as [[|first rest] [e|]];
      try reflexivity. destruct e; reflexivity.
  - destruct e; reflexivity.
Qed.

Lemma validate_cloudevent_state fs p type_name self :
  snd (validate_cloudevent fs p type_name self) =
    match instance_of json_loads p, type_to_schema !! type_name with
    | inl _, Some (String c rest) =>
        snd (_get_validator fs (String c rest) "events" self)
    | _, _ => self
    end.
Proof.
  unfold validate_cloudevent, try_except, bind. rewrite parse_if_str_run.
  destruct (instance_of json_loads p) as [instance|msg]; [|reflexivity].
  destruct (type_to_schema !! type_name) as [[|c rest]|]; try reflexivity.
  cbv beta iota delta [ret].
  destruct (_get_validator fs (String c rest) "events" self) as [[validator|e] self1].
  - unfold validate.
    destruct (iter_errors validator instance) as [[|first rest'] [e|]];
      try reflexivity. destruct e; reflexivity.
  - destruct e; reflexivity.
Qed.

(** A method call leaves the object as it was or as one [_get_validator]
    call leaves it. *)
Lemma after_call_cases (c : call) self :
  after_call c self = self
  ∨ ∃ fs schema_name schema_type,
      after_call c self = snd (_get_validator fs schema_name schema_type self).
Proof.
  destruct c as [fs n t|fs p n|fs p t|fs p n t]; simpl.
  - right. by exists fs, n, t.
  - rewrite validate_json_state. destruct (instance_of json_loads p); [|by left].
    right. by exists fs, n, "mandates".
  - rewrite validate_cloudevent_state.
    destruct (instance_of json_loads p); [|by left].
    destruct (type_to_schema !! t) as [[|ch rest]|]; try by left.
    right. by exists fs, (String ch rest), "events".
  - rewrite get_validation_errors_state. destruct (instance_of json_loads p); [|by left].
    right. by exists fs, n, t.
Qed.

(** X2. Both caches only grow: whatever the calls, with whatever payloads
    and on whatever filesystems, an entry once cached stays cached with the
    same value, and the loader keeps its base path. *)
Theorem caches_only_grow (calls : list call) self :
  base_path (schema_loader (after_all calls self)) = base_path (schema_loader self)
  ∧ (∀ key cached,
       _schemas_cache (schema_loader self) !! key = Some cached →
       _schemas_cache (schema_loader (after_all calls self)) !! key = Some cached)
  ∧ (∀ key cached,
       _validators_cache self !! key = Some cached →
       _validators_cache (after_all calls self) !! key = Some cached).
Proof.
  revert self. induction calls as [|c calls IH]; intros self; [done|].
  change (after_all (c :: calls) self) with (after_all calls (after_call c self)).
  destruct (IH (after_call c self)) as (Hb & Hs & Hv).
  destruct (after_call_cases c self) as [Heq|(fs & n & t & Heq)].
  - rewrite Heq in Hb, Hs, Hv |- *. exact (conj Hb (conj Hs Hv)).
  - destruct (_get_validator_keeps fs n t self) as (Hb1 & Hs1 & Hv1 & _).
    simpl in Hb1, Hs1, Hv1. rewrite <- Heq in Hb1, Hs1, Hv1.
    repeat split.
    + by rewrite Hb.
    + intros key cached Hkey. by apply Hs, Hs1.
    + intros key cached Hkey. by apply Hv, Hv1.
Qed.

(** X3. On a validator built by [ContractValidator(loader)], after any
    calls, every cached validator wraps exactly the schema that the loader
    has cached under the same key. *)
Theorem validators_wrap_cached_schemas (calls : list call) (loader : SchemaLoader) :
  ∀ key validator,
    _validators_cache (after_all calls (new_ContractValidator loader)) !! key
      = Some validator →
    _schemas_cache (schema_loader (after_all calls (new_ContractValidator loader))) !! key
      = Some (schema validator).
Proof.
  assert (Hkeep : ∀ calls self, coherent self → coherent (after_all calls self)).
  { clear calls. intros calls. induction calls as [|c calls IH]; intros self Hcoh; [done|].
    change (after_all (c :: calls) self) with (after_all calls (after_call c self)).
    apply IH.
    destruct (after_call_cases c self) as [->|(fs & n & t & ->)]; [done|].
    by apply _get_validator_keeps. }
  apply Hkeep. intros key validator Hkey. simpl in Hkey.
  rewrite lookup_empty in Hkey. discriminate.
Qed.

(** X4. A method call opens at most one file, so [n] calls open at most [n]
    files. *)
Theorem calls_open_at_most_one_file_each (calls : list call) self :
  (length (io_trace (schema_loader (after_all calls self)))
     ≤ length (io_trace (schema_loader self)) + length calls)%nat.
Proof.
  revert self. induction calls as [|c calls IH]; intros self; [simpl; lia|].
  change (after_all (c :: calls) self) with (after_all calls (after_call c self)).
  specialize (IH (after_call c self)).
  assert (length (io_trace (schema_loader (after_call c self)))
            ≤ length (io_trace (schema_loader self)) + 1)%nat.
  { destruct (after_call_cases c self) as [->|(fs & n & t & ->)]; [lia|].
    apply _get_validator_opens_at_most_one. }
  simpl length. lia.
Qed.

End StateFacts.

Lemma caches_only_grow_witness :
  let warm :=
    snd (_get_validator sample_loads sample_check_schema sample_fs
           "closed" "mandates" sample_validator) in
  _validators_cache
    (after_all sample_loads sample_check_schema sample_iter_errors
       [ CallValidateJson sample_fs (Text "{}") "intent_mandate";
         CallGetValidationErrors sample_fs (Text "{}") "broken" "mandates" ]
       warm) !! "mandates/closed"
  = Some {| schema := JBool false |}.
Proof.
  intros warm.
  apply (proj2 (proj2 (caches_only_grow sample_loads sample_check_schema sample_iter_errors
                         [ CallValidateJson sample_fs (Text "{}") "intent_mandate";
                           CallGetValidationErrors sample_fs (Text "{}") "broken"
                             "mandates" ]
                         warm))).
  vm_compute. reflexivity.
Defined.

Lemma validators_wrap_cached_schemas_witness :
  _schemas_cache
    (schema_loader
       (after_all sample_loads sample_check_schema sample_iter_errors
          [ CallValidateJson sample_fs (Text "{}") "closed" ]
          (new_ContractValidator (new_SchemaLoader "/srv")))) !! "mandates/closed"
  = Some (JBool false).
Proof.
  apply (validators_wrap_cached_schemas sample_loads sample_check_schema
           sample_iter_errors [ CallValidateJson sample_fs (Text "{}") "closed" ]
           (new_SchemaLoader "/srv") "mandates/closed" {| schema := JBool false |}).
  vm_compute. reflexivity.
Defined.

(** ** More on the schema store *)

Section StoreFacts.
Variable json_loads : string → json + string.
Variable check_schema : json → option string.

#[local] Abbreviation get_schema := (get_schema json_loads check_schema).

(** X5. On a cache miss with a known type, a readable schema file whose
    text parses and passes the meta-schema check is returned as parsed and
    stored under the call's key; exactly that file is opened. *)
Theorem get_schema_returns_file_content fs schema_name schema_type self text parsed :
  _schemas_cache self !! cache_key_of schema_type schema_name = None →
  known_type schema_type = true →
  fs_files fs !! schema_path_of (base_path self) schema_type schema_name
    = Some (Readable text) →
  json_loads text = inl parsed →
  check_schema parsed = None →
  get_schema fs schema_name schema_type self =
    (Returns parsed,
     {| base_path := base_path self;
        _schemas_cache :=
          <[cache_key_of schema_type schema_name := parsed]> (_schemas_cache self);
        io_trace :=
          schema_path_of (base_path self) schema_type schema_name :: io_trace self |}).
Proof.
  intros Hmiss Hty Hfile Hparse Hcheck.
  rewrite (get_schema_miss _ _ _ _ _ _ Hmiss Hty). simpl.
  by rewrite _load_schema_outcome, Hfile, Hparse, Hcheck.
Qed.


End StoreFacts.

Lemma get_schema_returns_file_content_witness :
  fst (get_schema sample_loads sample_check_schema sample_fs
         "closed" "mandates" (new_SchemaLoader "/srv"))
    = Returns (JBool false).
Proof.
  rewrite (get_schema_returns_file_content sample_loads sample_check_schema sample_fs
             "closed" "mandates" (new_SchemaLoader "/srv") "false" (JBool false));
    reflexivity.
Defined.


(** ** More on the facade *)

(** No entry of [type_to_schema] is the empty string. *)
Lemma type_to_schema_nonempty type_name schema_name :
  type_to_schema !! type_name = Some schema_name → schema_name ≠ "".
Proof.
  intros Hlook. unfold type_to_schema in Hlook.
  apply elem_of_list_to_map_2 in Hlook.
  repeat (apply elem_of_cons in Hlook as [Hlook|Hlook]; [by inversion Hlook|]).
  by apply elem_of_nil in Hlook.
Qed.

Section FacadeMore.
Variable json_loads : string → json + string.
Variable check_schema : json → option string.
Variable iter_errors : Draft202012Validator → json → generated violation.

#[local] Abbreviation _get_validator := (_get_validator json_loads check_schema).
#[local] Abbreviation validate_json := (validate_json json_loads check_schema iter_errors).
#[local] Abbreviation validate_cloudevent :=
  (validate_cloudevent json_loads check_schema iter_errors).
#[local] Abbreviation get_validation_errors :=
  (get_validation_errors json_loads check_schema iter_errors).

Lemma validate_cloudevent_run fs p type_name schema_name self instance :
  instance_of json_loads p = inl instance →
  type_to_schema !! type_name = Some schema_name →
  validate_cloudevent fs p type_name self =
    match _get_validator fs schema_name "events" self with
    | (Returns validator, self1) =>
        match iter_errors validator instance with
        | (first :: _, _) =>
            (Raises (ContractValidationError
                       ("Validation failed for CloudEvent type '" +:+ type_name
                          +:+ "': " +:+ v_message first)), self1)
        | ([], Some e) =>
            (match e with
             | JSONDecodeError _ =>
                 Raises (ContractValidationError
                           ("Invalid JSON payload: " +:+ str_of_exn e))
             | ValidationError message _ =>
                 Raises (ContractValidationError
                           ("Validation failed for CloudEvent type '" +:+ type_name
                              +:+ "': " +:+ message))
             | _ =>
                 Raises (ContractValidationError
                           ("Unexpected validation error: " +:+ str_of_exn e))
             end, self1)
        | ([], None) => (Returns true, self1)
        end
    | (Raises e, self1) =>
        (match e with
         | JSONDecodeError _ =>
             Raises (ContractValidationError ("Invalid JSON payload: " +:+ str_of_exn e))
         | ValidationError message _ =>
             Raises (ContractValidationError
                       ("Validation failed for CloudEvent type '" +:+ type_name
                          +:+ "': " +:+ message))
         | _ =>
             Raises (ContractValidationError
                       ("Unexpected validation error: " +:+ str_of_exn e))
         end, self1)
    end.
Proof.
  intros Hp Hreg. pose proof (type_to_schema_nonempty _ _ Hreg) as Hne.
  unfold validate_cloudevent, try_except, bind.
  rewrite (parse_if_str_run json_loads), Hp, Hreg.
  destruct schema_name as [|c rest]; [done|]. cbv beta iota delta [ret].
  destruct (_get_validator fs (String c rest) "events" self) as [[validator|e] self1].
  - unfold validate.
    destruct (iter_errors validator instance) as [[|first rest'] [e|]];
      try reflexivity. destruct e; reflexivity.
  - destruct e; reflexivity.
Qed.

(** X7. [validate_json] and [validate_cloudevent] have two kinds of
    outcome only: they return [True], or they raise
    [ContractValidationError].  They never return [False] and no other
    exception class leaves them. *)
Theorem validate_returns_true_or_contract_error fs p name self :
  (fst (validate_json fs p name self) = Returns true
   ∨ ∃ text, fst (validate_json fs p name self) = Raises (ContractValidationError text))
  ∧ (fst (validate_cloudevent fs p name self) = Returns true
     ∨ ∃ text,
         fst (validate_cloudevent fs p name self) = Raises (ContractValidationError text)).
Proof.
  split.
  - destruct (instance_of json_loads p) as [instance|msg] eqn:Hp.
    + destruct (_get_validator fs name "mandates" self) as [[validator|e] self1] eqn:Hv.
      * rewrite (validate_json_run _ _ _ _ _ _ _ _ _ _ Hp Hv).
        destruct (iter_errors validator instance) as [[|first rest] [e|]]; simpl;
          eauto. destruct e; eauto.
      * destruct (validate_json_no_validator _ _ iter_errors _ _ _ _ _ _ _ Hp Hv)
          as [text ->]. eauto.
    + rewrite (validate_json_malformed _ _ _ _ _ _ _ _ Hp). eauto.
  - destruct (instance_of json_loads p) as [instance|msg] eqn:Hp.
    + destruct (type_to_schema !! name) as [schema_name|] eqn:Hreg.
      * rewrite (validate_cloudevent_run _ _ _ _ _ _ Hp Hreg).
        destruct (_get_validator fs schema_name "events" self) as [[validator|e] self1].
        -- destruct (iter_errors validator instance) as [[|first rest] [e|]]; simpl;
             eauto. destruct e; eauto.
        -- destruct e; eauto.
      * rewrite (validate_cloudevent_unregistered _ _ _ _ _ _ _ _ Hp Hreg). eauto.
    + unfold validate_cloudevent, try_except, bind.
      rewrite (parse_if_str_run json_loads), Hp. eauto.
Qed.

(** X8. For a wire type in the table, with the event validator available
    and the payload parsed: a first violation makes [validate_cloudevent]
    raise an error whose text names the wire type, not the schema, and
    carries that violation's message only; no violation makes it return
    [True].  The schema is looked up under the type [events] and the table's
    schema name. *)
Theorem validate_cloudevent_fail_fast
    fs p type_name schema_name self instance validator self1 :
  instance_of json_loads p = inl instance →
  type_to_schema !! type_name = Some schema_name →
  _get_validator fs schema_name "events" self = (Returns validator, self1) →
  (∀ first rest stop,
     iter_errors validator instance = (first :: rest, stop) →
     validate_cloudevent fs p type_name self =
       (Raises (ContractValidationError
                  ("Validation failed for CloudEvent type '" +:+ type_name +:+ "': "
                     +:+ v_message first)), self1))
  ∧ (iter_errors validator instance = ([], None) →
     validate_cloudevent fs p type_name self = (Returns true, self1)).
Proof.
  intros Hp Hreg Hv.
  pose proof (validate_cloudevent_run fs p type_name schema_name self instance Hp Hreg)
    as Hrun.
  rewrite Hv in Hrun. split.
  - intros first rest stop Hit. by rewrite Hit in Hrun.
  - intros Hit. by rewrite Hit in Hrun.
Qed.

(** X9. For a wire type in the table, [validate_cloudevent] returns [True]
    exactly when [get_validation_errors], asked with the table's schema name
    and the type [events], returns the empty list; and both leave the
    validator object in the same state. *)
Theorem cloudevent_agrees_with_aggregating fs p type_name schema_name self :
  type_to_schema !! type_name = Some schema_name →
  (fst (validate_cloudevent fs p type_name self) = Returns true
   ↔ fst (get_validation_errors fs p schema_name "events" self) = Returns [])
  ∧ snd (validate_cloudevent fs p type_name self)
    = snd (get_validation_errors fs p schema_name "events" self).
Proof.
  intros Hreg. pose proof (type_to_schema_nonempty _ _ Hreg) as Hne.
  split.
  - rewrite get_validation_errors_run. unfold guarded_block.
    destruct (instance_of json_loads p) as [instance|msg] eqn:Hp.
    + rewrite (validate_cloudevent_run _ _ _ _ _ _ Hp Hreg).
      destruct (_get_validator fs schema_name "events" self) as [[validator|e] self1].
      * destruct (iter_errors validator instance) as [[|first rest] [e|]]; simpl.
        -- split; [destruct e|]; discriminate.
        -- done.
        -- split; discriminate.
        -- split; discriminate.
      * split; [destruct e|]; discriminate.
    + unfold validate_cloudevent, try_except, bind.
      rewrite (parse_if_str_run json_loads), Hp. simpl. split; discriminate.
  - rewrite (validate_cloudevent_state json_loads check_schema iter_errors).
    rewrite get_validation_errors_state, Hreg.
    destruct (instance_of json_loads p); [|reflexivity].
    destruct schema_name; [done|reflexivity].
Qed.

(** X10. Once the validator of a schema is cached, the filesystem no longer
    matters: [validate_json] and [get_validation_errors] give the same result
    on any two filesystems and leave the validator object untouched, so a
    schema file that is changed or removed afterwards goes unnoticed. *)
Theorem cached_validator_ignores_filesystem
    fs fs' p schema_name schema_type self cached :
  _validators_cache self !! cache_key_of schema_type schema_name = Some cached →
  get_validation_errors fs p schema_name schema_type self
    = get_validation_errors fs' p schema_name schema_type self
  ∧ snd (get_validation_errors fs p schema_name schema_type self) = self
  ∧ (schema_type = "mandates" →
     validate_json fs p schema_name self = validate_json fs' p schema_name self
     ∧ snd (validate_json fs p schema_name self) = self).
Proof.
  intros Hhit. repeat split.
  - unfold get_validation_errors, try_except, bind.
    rewrite !(parse_if_str_run json_loads).
    destruct (instance_of json_loads p); [|reflexivity].
    by rewrite !(_get_validator_hit _ _ _ _ _ _ _ Hhit).
  - rewrite get_validation_errors_state.
    destruct (instance_of json_loads p); [|reflexivity].
    by rewrite (_get_validator_hit _ _ _ _ _ _ _ Hhit).
  - subst schema_type. unfold validate_json, try_except, bind.
    rewrite !(parse_if_str_run json_loads).
    destruct (instance_of json_loads p); [|reflexivity].
    by rewrite !(_get_validator_hit _ _ _ _ _ _ _ Hhit).
  - subst schema_type.
    rewrite (validate_json_state json_loads check_schema iter_errors).
    destruct (instance_of json_loads p); [|reflexivity].
    by rewrite (_get_validator_hit _ _ _ _ _ _ _ Hhit).
Qed.


End FacadeMore.

Lemma validate_cloudevent_fail_fast_witness :
  fst (validate_cloudevent sample_loads sample_check_schema sample_iter_errors
         sample_events_fs (Parsed (JObj [])) "ocn.orca.decision.v1" sample_validator)
    = Raises (ContractValidationError
                "Validation failed for CloudEvent type 'ocn.orca.decision.v1': False schema does not allow this instance").
Proof.
  assert (Hv : _get_validator sample_loads sample_check_schema sample_events_fs
                 "orca.decision.v1" "events" sample_validator
               = (Returns {| schema := JBool false |},
                  snd (_get_validator sample_loads sample_check_schema sample_events_fs
                         "orca.decision.v1" "events" sample_validator)))
    by (vm_compute; reflexivity).
  assert (Hreg : type_to_schema !! "ocn.orca.decision.v1" = Some "orca.decision.v1")
    by (vm_compute; reflexivity).
  destruct (validate_cloudevent_fail_fast sample_loads sample_check_schema
              sample_iter_errors sample_events_fs (Parsed (JObj []))
              "ocn.orca.decision.v1" "orca.decision.v1" sample_validator (JObj []) _ _
              eq_refl Hreg Hv) as [Hbad _].
  rewrite (Hbad _ [] None eq_refl). reflexivity.
Defined.

Lemma cloudevent_agrees_with_aggregating_witness :
  fst (validate_cloudevent sample_loads sample_check_schema sample_iter_errors
         sample_events_fs (Text "{}") "ocn.orca.decision.v1" sample_validator)
    = Returns true
  ↔ fst (get_validation_errors sample_loads sample_check_schema sample_iter_errors
           sample_events_fs (Text "{}") "orca.decision.v1" "events" sample_validator)
    = Returns [].
Proof.
  apply (cloudevent_agrees_with_aggregating sample_loads sample_check_schema
           sample_iter_errors sample_events_fs (Text "{}")
           "ocn.orca.decision.v1" "orca.decision.v1" sample_validator).
  vm_compute. reflexivity.
Defined.

Lemma cached_validator_ignores_filesystem_witness :
  let warm :=
    snd (_get_validator sample_loads sample_check_schema sample_fs
           "closed" "mandates" sample_validator) in
  get_validation_errors sample_loads sample_check_schema sample_iter_errors
    sample_fs (Text "{}") "closed" "mandates" warm
  = get_validation_errors sample_loads sample_check_schema sample_iter_errors
      {| fs_files := ∅; fs_dirs := ∅ |} (Text "{}") "closed" "mandates" warm.
Proof.
  intros warm.
  apply (cached_validator_ignores_filesystem sample_loads sample_check_schema
           sample_iter_errors sample_fs {| fs_files := ∅; fs_dirs := ∅ |} (Text "{}")
           "closed" "mandates" warm {| schema := JBool false |}).
  vm_compute. reflexivity.
Defined.


(** ** The module-level validator *)

Section ToplevelFacts.
Variable json_loads : string → json + string.
Variable check_schema : json → option string.
Variable iter_errors : Draft202012Validator → json → generated violation.

Lemma toplevel_validate_json_run project_root fs p schema_name g :
  Toplevel.validate_json json_loads check_schema iter_errors
    project_root fs p schema_name g =
    let validator :=
      default (new_ContractValidator (new_SchemaLoader project_root)) g in
    (fst (validate_json json_loads check_schema iter_errors fs p schema_name validator),
     Some (snd (validate_json json_loads check_schema iter_errors
                  fs p schema_name validator))).
Proof.
  unfold Toplevel.validate_json, Toplevel.get_contract_validator, Toplevel.on_validator,
    bind.
  destruct g as [validator|]; simpl;
    by destruct (validate_json _ _ _ _ _ _ _) as [r validator'].
Qed.

Lemma validate_json_true_cached fs p schema_name self self1 :
  validate_json json_loads check_schema iter_errors fs p schema_name self
    = (Returns true, self1) →
  is_Some (_validators_cache self1 !! cache_key_of "mandates" schema_name).
Proof.
  intros Hrun.
  destruct (instance_of json_loads p) as [instance|msg] eqn:Hp.
  - destruct (_get_validator json_loads check_schema fs schema_name "mandates" self)
      as [[validator|e] self2] eqn:Hv.
    + rewrite (validate_json_run _ _ _ _ _ _ _ _ _ _ Hp Hv) in Hrun.
      exists validator.
      destruct (iter_errors validator instance) as [[|first rest] [e|]];
        try discriminate; [by destruct e|].
      inversion Hrun; subst.
      by apply (_get_validator_success_cached _ _ _ _ _ _ _ _ Hv).
    + destruct (validate_json_no_validator _ _ iter_errors _ _ _ _ _ _ _ Hp Hv)
        as [text Hraise].
      rewrite Hraise in Hrun. discriminate.
  - rewrite (validate_json_malformed _ _ _ _ _ _ _ _ Hp) in Hrun. discriminate.
Qed.

(** X12. The module-level functions work on one validator object: after a
    module-level [validate_json] returned [True], the global names a
    validator that [get_contract_validator] hands out unchanged, and every
    later module-level [validate_json] for that schema, with any payload and
    on any filesystem, leaves its caches as they are and opens no file. *)
Theorem module_level_validator_is_shared project_root fs p schema_name g g1 :
  Toplevel.validate_json json_loads check_schema iter_errors
    project_root fs p schema_name g = (Returns true, g1) →
  ∃ validator,
    g1 = Some validator
    ∧ Toplevel.get_contract_validator project_root g1 = (Returns validator, g1)
    ∧ ∀ fs' p',
        snd (Toplevel.validate_json json_loads check_schema iter_errors
               project_root fs' p' schema_name g1) = g1.
Proof.
  rewrite toplevel_validate_json_run. simpl. intros [= Hret <-].
  eexists. split; [reflexivity|]. split; [reflexivity|].
  intros fs' p'. rewrite toplevel_validate_json_run. simpl. f_equal.
  set (validator := default _ g) in *.
  destruct (validate_json_true_cached fs p schema_name validator
              (snd (validate_json json_loads check_schema iter_errors
                      fs p schema_name validator))) as [cached Hcached].
  { rewrite <- Hret. by destruct (validate_json _ _ _ _ _ _ _). }
  rewrite (validate_json_state json_loads check_schema iter_errors).
  destruct (instance_of json_loads p'); [|reflexivity].
  by rewrite (_get_validator_hit _ _ _ _ _ _ _ Hcached).
Qed.

End ToplevelFacts.

Lemma module_level_validator_is_shared_witness :
  ∃ validator,
    snd (Toplevel.validate_json sample_loads sample_check_schema sample_iter_errors
           "/srv" sample_fs (Text "{}") "intent_mandate" None) = Some validator
    ∧ snd (Toplevel.validate_json sample_loads sample_check_schema sample_iter_errors
             "/srv" {| fs_files := ∅; fs_dirs := ∅ |} (Text "null") "intent_mandate"
             (Some validator)) = Some validator.
Proof.
  destruct (module_level_validator_is_shared sample_loads sample_check_schema
              sample_iter_errors "/srv" sample_fs (Text "{}") "intent_mandate" None
              (snd (Toplevel.validate_json sample_loads sample_check_schema
                      sample_iter_errors "/srv" sample_fs (Text "{}")
                      "intent_mandate" None)))
    as (validator & Hg1 & _ & Hlater).
  { vm_compute. reflexivity. }
  exists validator. split; [exact Hg1|].
  rewrite <- Hg1. apply Hlater.
Defined.

(** ** More on the listing *)

Lemma string_app_length (s t : string) :
  String.length (s +:+ t) = (String.length s + String.length t)%nat.
Proof. induction s as [|a s IH]; simpl; [reflexivity|by rewrite IH]. Qed.

Lemma substring_whole (t : string) : substring 0 (String.length t) t = t.
Proof. induction t as [|a t IH]; simpl; [reflexivity|by rewrite IH]. Qed.

Lemma substring_at_end (s t : string) :
  substring (String.length s) (String.length t) (s +:+ t) = t.
Proof. induction s as [|a s IH]; simpl; [apply substring_whole|exact IH]. Qed.

Lemma string_split_at (k : nat) (s : string) :
  (k ≤ String.length s)%nat →
  s = substring 0 k s +:+ substring k (String.length s - k) s.
Proof.
  revert k. induction s as [|a s IH]; intros k Hk; simpl in *.
  - destruct k; [reflexivity|lia].
  - destruct k as [|k]; simpl.
    + by rewrite substring_whole.
    + change (String a s = String a (substring 0 k s +:+ substring k (String.length s - k) s)).
      f_equal. apply IH. lia.
Qed.

Lemma ends_with_iff (suffix s : string) :
  ends_with suffix s = true ↔ ∃ front, s = front +:+ suffix.
Proof.
  unfold ends_with. split.
  - intros H. apply andb_true_iff in H as [Hle Heq].
    apply Nat.leb_le in Hle. apply String.eqb_eq in Heq.
    exists (substring 0 (String.length s - String.length suffix) s).
    assert (Hsplit := string_split_at (String.length s - String.length suffix) s).
    replace (String.length s - (String.length s - String.length suffix))%nat
      with (String.length suffix) in Hsplit by lia.
    rewrite Heq in Hsplit. apply Hsplit. lia.
  - intros [front ->]. rewrite string_app_length.
    apply andb_true_iff. split; [apply Nat.leb_le; lia|].
    apply String.eqb_eq.
    replace (String.length front + String.length suffix - String.length suffix)%nat
      with (String.length front) by lia.
    apply substring_at_end.
Qed.

(** X13. What the listing holds for a category: for each entry
    [<name>.schema.json] of the category's directory the string
    [<name>.schema], and nothing else.  Entries with another ending
    contribute nothing. *)
Theorem list_available_schemas_listed fs self (category dir : string) :
  (category = "mandates"
   ∧ dir = path_join (path_join (base_path self) "common") "mandates")
  ∨ (category = "events"
     ∧ dir = path_join (path_join (path_join (base_path self) "common") "events") "v1") →
  ∃ names,
    list_available_schemas fs self !! category = Some names
    ∧ ∀ listed,
        listed ∈ names
        ↔ ∃ entries name,
            fs_dirs fs !! dir = Some entries
            ∧ (name +:+ ".schema.json") ∈ entries
            ∧ listed = name +:+ ".schema".
Proof.
  intros Hcat.
  destruct (list_available_schemas_lookup fs self) as [Hm He].
  exists (map stem (glob fs dir ".schema.json")). split.
  { destruct Hcat as [[-> ->]|[-> ->]]; assumption. }
  clear Hcat Hm He. intros listed.
  rewrite list_elem_of_In, in_map_iff. unfold glob. split.
  - intros (file & Hstem & Hin). apply (proj2 (list_elem_of_In _ _)) in Hin.
    destruct (fs_dirs fs !! dir) as [entries|]; [|by apply elem_of_nil in Hin].
    apply list_elem_of_filter in Hin as [Hends Hin].
    apply Is_true_true, ends_with_iff in Hends as [name ->].
    exists entries, name. repeat split; [done|].
    by rewrite <- Hstem, stem_schema_file.
  - intros (entries & name & -> & Hin & ->).
    exists (name +:+ ".schema.json"). split; [apply stem_schema_file|].
    apply (proj1 (list_elem_of_In _ _)), list_elem_of_filter. split; [|done].
    apply Is_true_true, ends_with_iff. by exists name.
Qed.

(** X14. The listing always has exactly the keys [mandates] and [events];
    a category whose directory is absent, or has no entry ending in
    [.schema.json], maps to the empty list. *)
Theorem list_available_schemas_keys_and_empty fs self :
  dom (list_available_schemas fs self) = ({["mandates"; "events"]} : gset string)
  ∧ ∀ category dir,
      (category = "mandates"
       ∧ dir = path_join (path_join (base_path self) "common") "mandates")
      ∨ (category = "events"
         ∧ dir = path_join
                   (path_join (path_join (base_path self) "common") "events") "v1") →
      (fs_dirs fs !! dir = None
       ∨ ∃ entries,
           fs_dirs fs !! dir = Some entries
           ∧ Forall (λ n, ends_with ".schema.json" n = false) entries) →
      list_available_schemas fs self !! category = Some [].
Proof.
  split.
  - unfold list_available_schemas. rewrite !dom_insert_L, dom_empty_L. set_solver.
  - intros category dir Hcat Hdir.
    assert (Hglob : glob fs dir ".schema.json" = []).
    { destruct Hdir as [Hnone|(entries & Hsome & Hall)].
      - by apply glob_absent.
      - by apply (glob_no_match _ _ _ entries). }
    destruct (list_available_schemas_lookup fs self) as [Hm He].
    destruct Hcat as [[-> ->]|[-> ->]]; [rewrite Hm|rewrite He]; by rewrite Hglob.
Qed.

Lemma list_available_schemas_listed_witness :
  ∃ names,
    list_available_schemas sample_fs (new_SchemaLoader "/srv") !! "mandates" = Some names
    ∧ "closed.schema" ∈ names.
Proof.
  destruct (list_available_schemas_listed sample_fs (new_SchemaLoader "/srv")
              "mandates" "/srv/common/mandates") as (names & Hnames & Hin).
  { left. split; reflexivity. }
  exists names. split; [exact Hnames|].
  apply Hin. eexists _, "closed". split; [vm_compute; reflexivity|].
  split; [|reflexivity]. apply (proj2 (list_elem_of_In _ _)). simpl. auto.
Defined.

Lemma list_available_schemas_keys_and_empty_witness :
  list_available_schemas sample_fs (new_SchemaLoader "/srv") !! "events" = Some [].
Proof.
  apply (proj2 (list_available_schemas_keys_and_empty sample_fs (new_SchemaLoader "/srv"))
           "events" "/srv/common/events/v1").
  - right. split; reflexivity.
  - left. vm_compute. reflexivity.
Defined.

(** ** More on [trace.py] *)

Lemma string_app_assoc (a b c : string) : (a +:+ b) +:+ c = a +:+ b +:+ c.
Proof.
  induction a as [|x a IH]; [reflexivity|].
  change (String x ((a +:+ b) +:+ c) = String x (a +:+ b +:+ c)). by rewrite IH.
Qed.

Lemma string_app_nil_r (a : string) : a +:+ "" = a.
Proof.
  induction a as [|x a IH]; [reflexivity|].
  change (String x (a +:+ "") = String x a). by rewrite IH.
Qed.

Lemma string_app_nonempty (a b : string) : a ≠ "" → a +:+ b ≠ "".
Proof. by destruct a. Qed.

Lemma concat_space_cons (part : string) (parts : list string) :
  String.concat " " (part :: parts)
    = part +:+ fold_right (λ p acc, " " +:+ p +:+ acc) "" parts.
Proof.
  revert part. induction parts as [|q parts IH]; intros part.
  - simpl. by rewrite string_app_nil_r.
  - change (String.concat " " (part :: q :: parts))
      with (part +:+ " " +:+ String.concat " " (q :: parts)).
    rewrite IH. reflexivity.
Qed.

Module TraceUtilFacts.
Import Trace TraceUtil.

(** X15. The log line is the bracketed trace ID, a space, the message, and
    then for every keyword argument, in order, a space and [name=value]:
    without keyword arguments the line ends with the message, and there is
    never a doubled or trailing space of the function's making. *)
Theorem format_trace_log_shape (trace_id message : string) (kwargs : list (string * string)) :
  format_trace_log trace_id message kwargs
    = "[trace_id=" +:+ trace_id +:+ "] " +:+ message
        +:+ fold_right (λ kv acc, " " +:+ (fst kv +:+ "=" +:+ snd kv) +:+ acc) "" kwargs.
Proof.
  unfold format_trace_log. do 3 f_equal.
  destruct kwargs as [|[k v] kwargs]; [reflexivity|].
  change (map _ ((k, v) :: kwargs))
    with ((k +:+ "=" +:+ v) :: map (λ kv, fst kv +:+ "=" +:+ snd kv) kwargs).
  cbv iota. rewrite concat_space_cons.
  assert (Hne : (k +:+ "=" +:+ v)
                  +:+ fold_right (λ p acc, " " +:+ p +:+ acc) ""
                        (map (λ kv, fst kv +:+ "=" +:+ snd kv) kwargs) ≠ "").
  { apply string_app_nonempty. by destruct k. }
  apply String.eqb_neq in Hne. rewrite Hne.
  assert (Hsame : fold_right (λ p acc, " " +:+ p +:+ acc) ""
                    (map (λ kv, fst kv +:+ "=" +:+ snd kv) kwargs)
                  = fold_right (λ kv acc, " " +:+ (fst kv +:+ "=" +:+ snd kv) +:+ acc)
                      "" kwargs).
  { clear Hne. induction kwargs as [|kv kwargs IH]; simpl; [reflexivity|by rewrite IH]. }
  rewrite Hsame. reflexivity.
Qed.

Lemma inject_trace_id_ce_run (h : gmap nat (gmap string value)) envelope fields trace_id :
  h !! envelope = Some fields →
  inject_trace_id_ce envelope trace_id h
    = (Returns (fresh (dom h)),
       <[fresh (dom h) := <["subject" := VStr trace_id]> fields]> h).
Proof.
  intros Henv. unfold inject_trace_id_ce, bind, dict_copy, dict_setitem, ret.
  rewrite Henv. simpl. by rewrite lookup_insert_eq, insert_insert_eq.
Qed.

(** X16. Injecting into the result of an injection: the second result
    carries the second trace ID and is otherwise the original envelope, as if
    injected once; the first result keeps the first trace ID and the original
    envelope stays as it was.  The three are distinct objects. *)
Theorem inject_trace_id_ce_twice (h : gmap nat (gmap string value))
    envelope fields (first_id second_id : string) :
  h !! envelope = Some fields →
  ∃ r1 h1 r2 h2,
    inject_trace_id_ce envelope first_id h = (Returns r1, h1)
    ∧ inject_trace_id_ce r1 second_id h1 = (Returns r2, h2)
    ∧ h2 !! r2 = Some (<["subject" := VStr second_id]> fields)
    ∧ h2 !! r1 = Some (<["subject" := VStr first_id]> fields)
    ∧ h2 !! envelope = Some fields
    ∧ r1 ≠ envelope ∧ r2 ≠ envelope ∧ r2 ≠ r1.
Proof.
  intros Henv.
  set (r1 := fresh (dom h)).
  set (h1 := <[r1 := <["subject" := VStr first_id]> fields]> h).
  set (r2 := fresh (dom h1)).
  assert (Hr1 : h !! r1 = None) by (apply not_elem_of_dom, is_fresh).
  assert (Hr2 : h1 !! r2 = None) by (apply not_elem_of_dom, is_fresh).
  assert (Hne1 : r1 ≠ envelope) by (intros Heq; rewrite Heq, Henv in Hr1; discriminate).
  assert (Hne21 : r2 ≠ r1).
  { intros Heq. rewrite Heq in Hr2. unfold h1 in Hr2.
    rewrite lookup_insert_eq in Hr2. discriminate. }
  assert (Hne2 : r2 ≠ envelope).
  { intros Heq. rewrite Heq in Hr2. unfold h1 in Hr2.
    rewrite lookup_insert_ne in Hr2 by done. rewrite Henv in Hr2. discriminate. }
  exists r1, h1, r2,
    (<[r2 := <["subject" := VStr second_id]> (<["subject" := VStr first_id]> fields)]> h1).
  repeat split; try done.
  - by apply inject_trace_id_ce_run.
  - apply inject_trace_id_ce_run. apply lookup_insert_eq.
  - rewrite lookup_insert_eq. by rewrite insert_insert_eq.
  - rewrite lookup_insert_ne by done. apply lookup_insert_eq.
  - rewrite lookup_insert_ne by done. unfold h1. by rewrite lookup_insert_ne.
Qed.

Lemma inject_trace_id_ce_twice_witness :
  ∃ r1 h1 r2 h2,
    inject_trace_id_ce 0 "trace-1" sample_heap = (Returns r1, h1)
    ∧ inject_trace_id_ce r1 "trace-2" h1 = (Returns r2, h2)
    ∧ (h2 !! r2 ≫= λ fields, fields !! "subject") = Some (VStr "trace-2")
    ∧ (h2 !! 0%nat ≫= λ fields, fields !! "subject") = Some (VStr "old-subject").
Proof.
  destruct (inject_trace_id_ce_twice sample_heap 0
              (list_to_map [ ("specversion", VStr "1.0"); ("id", VStr "event-123");
                             ("source", VStr "https://example.com");
                             ("type", VStr "ocn.orca.decision.v1");
                             ("subject", VStr "old-subject");
                             ("data", VRef 1) ])
              "trace-1" "trace-2")
    as (r1 & h1 & r2 & h2 & Hrun1 & Hrun2 & Hres2 & _ & Henv & _).
  { vm_compute. reflexivity. }
  exists r1, h1, r2, h2. repeat split; try assumption.
  - rewrite Hres2. simpl. apply lookup_insert_eq.
  - rewrite Henv. vm_compute. reflexivity.
Defined.

Section UuidFacts.
Variable uuid4 : nat → string.
Variable uuid_version : string → option (option nat).

#[local] Abbreviation ensure_trace_id := (ensure_trace_id uuid4 uuid_version).
#[local] Abbreviation create_trace_context := (create_trace_context uuid4).
#[local] Abbreviation dispatch := (dispatch uuid4).
#[local] Abbreviation UUID := (UUID uuid_version).

(** The world after a new trace ID was stored in the dictionary [ctx]. *)
Lemma ensure_trace_id_run ctx fields w :
  objects w !! ctx = Some fields →
  let existing := default VNone (fields !! "trace_id") in
  let replaced :=
    (Returns (VStr (uuid4 (drawn w))),
     {| objects := <[ctx := <["trace_id" := VStr (uuid4 (drawn w))]> fields]> (objects w);
        drawn := S (drawn w);
        trace_context := trace_context w |}) in
  ensure_trace_id (Some ctx) w =
    if truthy (objects w) existing then
      match UUID existing with
      | UUIDParsed (Some 4%nat) => (Returns existing, w)
      | UUIDParsed _ | RaisesValueError | RaisesTypeError => replaced
      | RaisesAttributeError str => (Raises (OtherException str), w)
      end
    else replaced.
Proof.
  intros Hctx existing replaced.
  assert (Hreplaced :
    ∀ w0, w0 = w →
      (let! _ := (let! generated := new_trace_id uuid4 in
                  zoom objects set_objects
                    (dict_setitem ctx "trace_id" (VStr generated))) in
       zoom objects set_objects (dict_getitem ctx "trace_id")) w0 = replaced).
  { intros w0 ->. unfold bind, new_trace_id, zoom, dict_setitem, dict_getitem. simpl.
    rewrite Hctx. simpl. rewrite lookup_insert_eq. simpl. rewrite lookup_insert_eq.
    reflexivity. }
  assert (Hw : set_objects (objects w) w = w) by (by destruct w).
  unfold ensure_trace_id, bind at 1 2 3 4.
  unfold ret at 1. unfold zoom at 1, dict_get. rewrite Hctx. fold existing.
  rewrite Hw. unfold get_state.
  destruct (truthy (objects w) existing) eqn:Htruthy.
  - unfold bind at 1. unfold _is_valid_trace_id. fold UUID.
    destruct (UUID existing) as [[v|]| | |str] eqn:Hparse.
    + destruct (Nat.eqb v 4) eqn:Hv4.
      * apply Nat.eqb_eq in Hv4. subst v. unfold ret at 1 2. simpl negb. cbv iota.
        unfold bind, ret, zoom, dict_getitem. rewrite Hctx.
        unfold existing in *. destruct (fields !! "trace_id") as [x|]; simpl.
        -- by rewrite Hw.
        -- simpl in Htruthy. discriminate.
      * unfold ret at 1 2. simpl negb. cbv iota.
        rewrite (Hreplaced w eq_refl).
        destruct v as [|[|[|[|[|v]]]]]; try reflexivity. discriminate.
    + unfold ret at 1 2. simpl negb. cbv iota. by rewrite (Hreplaced w eq_refl).
    + unfold ret at 1 2. simpl negb. cbv iota. by rewrite (Hreplaced w eq_refl).
    + unfold ret at 1 2. simpl negb. cbv iota. by rewrite (Hreplaced w eq_refl).
    + reflexivity.
  - unfold ret at 1. cbv iota. by rewrite (Hreplaced w eq_refl).
Qed.

Lemma ensure_trace_id_keeps_valid_aux ctx fields w (existing : string) :
  objects w !! ctx = Some fields →
  fields !! "trace_id" = Some (VStr existing) →
  existing ≠ "" →
  uuid_version existing = Some (Some 4%nat) →
  ensure_trace_id (Some ctx) w = (Returns (VStr existing), w).
Proof.
  intros Hctx Hid Hne Hv4. rewrite (ensure_trace_id_run ctx fields w Hctx).
  rewrite Hid. simpl. apply String.eqb_neq in Hne. rewrite Hne. simpl.
  unfold TraceUtil.UUID. by rewrite Hv4.
Qed.

(** X17. A context whose [trace_id] is a non-empty string that parses as a
    version 4 UUID is left alone: the ID is returned, no UUID is drawn and
    the context is not written. *)
Theorem ensure_trace_id_keeps_valid ctx fields w (existing : string) :
  objects w !! ctx = Some fields →
  fields !! "trace_id" = Some (VStr existing) →
  existing ≠ "" →
  uuid_version existing = Some (Some 4%nat) →
  ensure_trace_id (Some ctx) w = (Returns (VStr existing), w).
Proof. apply ensure_trace_id_keeps_valid_aux. Qed.

(** X18. A context without [trace_id], or whose [trace_id] is false in
    Python's sense ([None], the empty string, zero, [False], an empty
    dictionary), or is a string that is not a version 4 UUID, gets a newly
    drawn ID: it is stored under [trace_id] and returned, one UUID is drawn,
    and the other keys and objects are untouched. *)
Theorem ensure_trace_id_replaces ctx fields w :
  objects w !! ctx = Some fields →
  fields !! "trace_id" = None
  ∨ (∃ v, fields !! "trace_id" = Some v ∧ truthy (objects w) v = false)
  ∨ (∃ s, fields !! "trace_id" = Some (VStr s) ∧ uuid_version s ≠ Some (Some 4%nat)) →
  ensure_trace_id (Some ctx) w =
    (Returns (VStr (uuid4 (drawn w))),
     {| objects := <[ctx := <["trace_id" := VStr (uuid4 (drawn w))]> fields]> (objects w);
        drawn := S (drawn w);
        trace_context := trace_context w |}).
Proof.
  intros Hctx Hcase. rewrite (ensure_trace_id_run ctx fields w Hctx).
  destruct Hcase as [Hmissing|[(v & Hv & Hfalsy)|(s & Hs & Hbad)]].
  - by rewrite Hmissing.
  - rewrite Hv. simpl. by rewrite Hfalsy.
  - rewrite Hs. simpl. destruct (negb (s =? "")%string); [|reflexivity].
    unfold TraceUtil.UUID.
    destruct (uuid_version s) as [[[|[|[|[|[|n]]]]]|]|]; try reflexivity. done.
Qed.

(** X19. A [trace_id] that is true in Python's sense and not a string (a
    number, [True], a non-empty dictionary) makes [ensure_trace_id] raise the
    [AttributeError] of [uuid.UUID], which [_is_valid_trace_id] does not
    catch; the context is not written. *)
Theorem ensure_trace_id_attribute_error ctx fields w v :
  objects w !! ctx = Some fields →
  fields !! "trace_id" = Some v →
  truthy (objects w) v = true →
  (∀ s, v ≠ VStr s) →
  ensure_trace_id (Some ctx) w =
    (Raises (OtherException ("'" +:+ type_name v +:+ "' object has no attribute 'replace'")),
     w).
Proof.
  intros Hctx Hv Htruthy Hnostr. rewrite (ensure_trace_id_run ctx fields w Hctx).
  rewrite Hv. simpl. rewrite Htruthy.
  destruct v as [|b|n|s|l]; try reflexivity.
  - discriminate.
  - by destruct (Hnostr s).
Qed.

(** X20. When [uuid4] yields non-empty strings that parse as version 4
    UUIDs, [ensure_trace_id] is idempotent: a second call on the same context
    returns the ID the first call returned, draws no UUID and writes
    nothing. *)
Theorem ensure_trace_id_idempotent ctx fields w v w1 :
  (∀ n, uuid_version (uuid4 n) = Some (Some 4%nat)) →
  (∀ n, uuid4 n ≠ "") →
  objects w !! ctx = Some fields →
  ensure_trace_id (Some ctx) w = (Returns v, w1) →
  ensure_trace_id (Some ctx) w1 = (Returns v, w1).
Proof.
  intros Hvalid Hne Hctx Hrun.
  assert (Hnew : ∀ w',
             w' = {| objects :=
                       <[ctx := <["trace_id" := VStr (uuid4 (drawn w))]> fields]> (objects w);
                     drawn := S (drawn w);
                     trace_context := trace_context w |} →
             ensure_trace_id (Some ctx) w' = (Returns (VStr (uuid4 (drawn w))), w')).
  { intros w' ->.
    apply (ensure_trace_id_keeps_valid_aux ctx
             (<["trace_id" := VStr (uuid4 (drawn w))]> fields)).
    - apply lookup_insert_eq.
    - apply lookup_insert_eq.
    - apply Hne.
    - apply Hvalid. }
  rewrite (ensure_trace_id_run ctx fields w Hctx) in Hrun. simpl in Hrun.
  destruct (truthy (objects w) (default VNone (fields !! "trace_id"))) eqn:Ht.
  - destruct (UUID (default VNone (fields !! "trace_id")))
      as [[[|[|[|[|[|n]]]]]|]| | |str] eqn:Hparse;
      inversion Hrun; subst; try (by apply Hnew).
    rewrite (ensure_trace_id_run ctx fields w1 Hctx). simpl.
    by rewrite Ht, Hparse.
  - inversion Hrun; subst. by apply Hnew.
Qed.

(** X21. Called without a context, [ensure_trace_id] returns a newly drawn
    ID and writes it only into a dictionary of its own making: every
    dictionary that existed before the call is as it was. *)
Theorem ensure_trace_id_without_context w :
  ∃ w',
    ensure_trace_id None w = (Returns (VStr (uuid4 (drawn w))), w')
    ∧ drawn w' = S (drawn w)
    ∧ trace_context w' = trace_context w
    ∧ ∀ l fields, objects w !! l = Some fields → objects w' !! l = Some fields.
Proof.
  set (l0 := fresh (dom (objects w))).
  assert (Hfresh : objects w !! l0 = None) by (apply not_elem_of_dom, is_fresh).
  change (ensure_trace_id None w)
    with (ensure_trace_id (Some l0) (set_objects (<[l0 := ∅]> (objects w)) w)).
  rewrite (ensure_trace_id_run l0 ∅) by apply lookup_insert_eq.
  rewrite lookup_empty. simpl. eexists. split; [reflexivity|]. simpl.
  repeat split. intros l fields Hl.
  rewrite !lookup_insert_ne; [done| |]; intros <-; congruence.
Qed.

Lemma create_trace_context_run (given : option string) w :
  create_trace_context given w =
    (Returns (fresh (dom (objects w))),
     {| objects :=
          <[fresh (dom (objects w)) :=
              <["version" := VStr "1.0.0"]>
                (<["service" := VStr "ocn-common"]>
                   (<["trace_id" := VStr (default (uuid4 (drawn w)) given)]> ∅))]>
            (objects w);
        drawn := match given with Some _ => drawn w | None => S (drawn w) end;
        trace_context := trace_context w |}).
Proof. destruct given; reflexivity. Qed.

(** X22. [create_trace_context] followed by [ensure_trace_id] on the
    dictionary it made.  A context created without an ID keeps the ID that
    was generated for it, provided [uuid4] yields non-empty version 4 UUIDs.
    A context created with a caller's ID that is not a version 4 UUID does
    not keep it: [ensure_trace_id] overwrites it with a newly drawn one. *)
Theorem ensure_trace_id_after_create_trace_context w ctx w1 :
  ((∀ n, uuid_version (uuid4 n) = Some (Some 4%nat)) →
   (∀ n, uuid4 n ≠ "") →
   create_trace_context None w = (Returns ctx, w1) →
   ensure_trace_id (Some ctx) w1 = (Returns (VStr (uuid4 (drawn w))), w1))
  ∧ (∀ given,
       uuid_version given ≠ Some (Some 4%nat) →
       create_trace_context (Some given) w = (Returns ctx, w1) →
       ∃ w2,
         ensure_trace_id (Some ctx) w1 = (Returns (VStr (uuid4 (drawn w))), w2)
         ∧ (objects w2 !! ctx ≫= λ fields, fields !! "trace_id")
           = Some (VStr (uuid4 (drawn w)))
         ∧ drawn w2 = S (drawn w)).
Proof.
  split.
  - intros Hvalid Hne. rewrite create_trace_context_run. intros [= <- <-].
    eapply ensure_trace_id_keeps_valid_aux; simpl.
    + apply lookup_insert_eq.
    + rewrite !lookup_insert_ne by done. apply lookup_insert_eq.
    + apply Hne.
    + apply Hvalid.
  - intros given Hbad. rewrite create_trace_context_run. intros [= <- <-].
    erewrite ensure_trace_id_run by (simpl; apply lookup_insert_eq).
    rewrite !lookup_insert_ne by done. rewrite lookup_insert_eq. simpl.
    eexists. split.
    + destruct (negb (given =? "")%string); [|reflexivity].
      unfold TraceUtil.UUID.
      destruct (uuid_version given) as [[[|[|[|[|[|n]]]]]|]|]; try reflexivity. done.
    + simpl. rewrite lookup_insert_eq. simpl. by rewrite lookup_insert_eq.
Qed.

(** X23. The middleware's [dispatch].  The trace ID is the incoming header
    when it is present and not empty, and a newly drawn UUID otherwise; the
    rest of the application runs with the context variable set to it.  When
    the application answers, the answer is returned with the header
    [x-ocn-trace-id] set to that ID and nothing else changed; when it raises,
    the exception is passed on.  Either way the context variable is [None]
    afterwards. *)
Theorem dispatch_outcome (header : option string) (call_next : M world response) w :
  let trace_id :=
    match header with
    | Some (String c rest) => String c rest
    | _ => uuid4 (drawn w)
    end in
  let entered :=
    {| objects := objects w;
       drawn := match header with
                | Some (String _ _) => drawn w
                | _ => S (drawn w)
                end;
       trace_context := Some trace_id |} in
  trace_context (snd (dispatch header call_next w)) = None
  ∧ (∀ answer w',
       call_next entered = (Returns answer, w') →
       ∃ out,
         fst (dispatch header call_next w) = Returns out
         ∧ headers out !! TRACE_HEADER = Some trace_id
         ∧ (∀ k, k ≠ TRACE_HEADER → headers out !! k = headers answer !! k)
         ∧ status out = status answer)
  ∧ (∀ e w',
       call_next entered = (Raises e, w') →
       fst (dispatch header call_next w) = Raises e).
Proof.
  intros trace_id entered.
  assert (Hrun : dispatch header call_next w =
                   match call_next entered with
                   | (Returns answer, w') =>
                       (Returns (set_header TRACE_HEADER trace_id answer),
                        set_trace_context None w')
                   | (Raises e, w') => (Raises e, set_trace_context None w')
                   end).
  { unfold dispatch, bind, try_finally, set_current_trace_id, clear_current_trace_id,
      modify, new_trace_id, ret.
    subst entered trace_id.
    destruct header as [[|c rest]|]; simpl;
      by destruct (call_next _) as [[answer|e] w']. }
  rewrite Hrun. repeat split.
  - by destruct (call_next entered) as [[answer|e] w'].
  - intros answer w' ->. eexists. split; [reflexivity|]. simpl.
    repeat split; [apply lookup_insert_eq|].
    intros k Hk. by apply lookup_insert_ne.
  - by intros e w' ->.
Qed.

End UuidFacts.

Lemma ensure_trace_id_keeps_valid_witness :
  ensure_trace_id sample_uuid4 sample_uuid_version (Some 0%nat)
    (snd (ensure_trace_id sample_uuid4 sample_uuid_version (Some 0%nat) sample_world))
  = (Returns (VStr "550e8400-e29b-41d4-a716-446655440000"),
     snd (ensure_trace_id sample_uuid4 sample_uuid_version (Some 0%nat) sample_world)).
Proof.
  apply (ensure_trace_id_keeps_valid sample_uuid4 sample_uuid_version 0
           (<["trace_id" := VStr "550e8400-e29b-41d4-a716-446655440000"]>
              (list_to_map [ ("user_id", VStr "123") ]))).
  - vm_compute. reflexivity.
  - vm_compute. reflexivity.
  - discriminate.
  - reflexivity.
Defined.

Lemma ensure_trace_id_replaces_witness :
  fst (ensure_trace_id sample_uuid4 sample_uuid_version (Some 0%nat) sample_world)
    = Returns (VStr "550e8400-e29b-41d4-a716-446655440000").
Proof.
  rewrite (ensure_trace_id_replaces sample_uuid4 sample_uuid_version 0
             (list_to_map [ ("user_id", VStr "123") ]) sample_world).
  - reflexivity.
  - vm_compute. reflexivity.
  - left. vm_compute. reflexivity.
Defined.

Lemma ensure_trace_id_attribute_error_witness :
  fst (ensure_trace_id sample_uuid4 sample_uuid_version (Some 0%nat)
         {| objects := {[ 0%nat := {[ "trace_id" := VInt 5 ]} ]};
            drawn := 0; trace_context := None |})
    = Raises (OtherException "'int' object has no attribute 'replace'").
Proof.
  rewrite (ensure_trace_id_attribute_error sample_uuid4 sample_uuid_version 0
             {[ "trace_id" := VInt 5 ]} _ (VInt 5)).
  - reflexivity.
  - vm_compute. reflexivity.
  - vm_compute. reflexivity.
  - reflexivity.
  - discriminate.
Defined.

Lemma ensure_trace_id_idempotent_witness :
  ensure_trace_id sample_uuid4 sample_uuid_version (Some 0%nat)
    (snd (ensure_trace_id sample_uuid4 sample_uuid_version (Some 0%nat) sample_world))
  = (Returns (VStr "550e8400-e29b-41d4-a716-446655440000"),
     snd (ensure_trace_id sample_uuid4 sample_uuid_version (Some 0%nat) sample_world)).
Proof.
  apply (ensure_trace_id_idempotent sample_uuid4 sample_uuid_version 0
           (list_to_map [ ("user_id", VStr "123") ]) sample_world).
  - intros [|n]; reflexivity.
  - intros [|n]; discriminate.
  - vm_compute. reflexivity.
  - vm_compute. reflexivity.
Defined.

Lemma ensure_trace_id_after_create_trace_context_witness :
  ∃ w2,
    ensure_trace_id sample_uuid4 sample_uuid_version
      (Some (fresh (dom (objects sample_world))))
      (snd (create_trace_context sample_uuid4 (Some "custom-trace-123") sample_world))
    = (Returns (VStr "550e8400-e29b-41d4-a716-446655440000"), w2).
Proof.
  destruct (proj2 (ensure_trace_id_after_create_trace_context
                     sample_uuid4 sample_uuid_version sample_world
                     (fresh (dom (objects sample_world)))
                     (snd (create_trace_context sample_uuid4 (Some "custom-trace-123")
                             sample_world)))
              "custom-trace-123") as (w2 & Hrun & _).
  - discriminate.
  - reflexivity.
  - exists w2. exact Hrun.
Defined.

Lemma dispatch_outcome_witness :
  ∃ out,
    fst (dispatch sample_uuid4 (Some "trace-from-client")
           (ret {| status := 200; headers := ∅ |}) sample_world) = Returns out
    ∧ headers out !! "x-ocn-trace-id" = Some "trace-from-client".
Proof.
  destruct (proj1 (proj2 (dispatch_outcome sample_uuid4 (Some "trace-from-client")
                            (ret {| status := 200; headers := ∅ |}) sample_world))
              {| status := 200; headers := ∅ |}
              {| objects := objects sample_world; drawn := 0;
                 trace_context := Some "trace-from-client" |} eq_refl)
    as (out & Hout & Hheader & _).
  exists out. split; assumption.
Defined.

End TraceUtilFacts.
